(** * Verification of [js/statistics.js]

    A shallow embedding of the statistics routines of [js/statistics.js]
    ([anova], [countNull], [mean], [variance], [quantile], [summary],
    [tTest], [pearsonCorrelation] and their helpers) together with the part
    of the JavaScript runtime they rely on.

    - JavaScript numbers are IEEE 754 binary64 values: they are embedded as
      Rocq's primitive [float], whose operations are the correctly rounded
      binary64 operations and whose NaN is unique, as NaN is for a script.
    - Array lengths, loop indices and the counter of [countNull] are
      integers far below 2^53, where binary64 arithmetic is exact; they are
      kept in [nat] and [Z] and injected with [Z2F] where they meet
      floating-point arithmetic.
    - Values are JSON-like data plus [undefined]; arrays are dense.
    - Functions that only read their arrays are pure functions on lists.
      [quantile], [median] and [summary], which call [Array.prototype.sort],
      are written over an explicit store of array objects, so that what they
      do to the caller's array can be stated. *)

From Stdlib Require Import ZArith List Bool String Ascii Lia.
From Stdlib Require Import Floats.
From Stdlib Require Uint63 Permutation.
From stdpp Require Import base list.

Set Warnings "-inexact-float,-register-all".
Local Open Scope float_scope.

(* ===================================================================== *)
(** * The Number type                                                     *)
(* ===================================================================== *)

(** The Number nearest to an integer (round to nearest, ties to even);
    exact below 2^53. *)
Definition Z2F (z : Z) : float := SF2Prim (binary_normalize prec emax z 0 false).

Definition N2F (n : nat) : float := Z2F (Z.of_nat n).

(** The integer a finite Number denotes, when it denotes one. *)
Definition F2Z (f : float) : option Z :=
  match Prim2SF f with
  | S754_zero _ => Some 0%Z
  | S754_finite s m e =>
      let a := if (0 <=? e)%Z then Some (Z.shiftl (Zpos m) e)
               else let q := Z.shiftr (Zpos m) (- e) in
                    if (Z.shiftl q (- e) =? Zpos m)%Z then Some q else None in
      if s then option_map Z.opp a else a
  | _ => None
  end.

(** [Math.floor]: the largest integral Number not above the argument; NaN,
    the infinities, both zeros and integral Numbers are returned as they
    are. *)
Definition Math_floor (f : float) : float :=
  match Prim2SF f with
  | S754_finite s m e =>
      if (0 <=? e)%Z then f
      else
        let q := Z.shiftr (Zpos m) (- e) in
        if (Z.shiftl q (- e) =? Zpos m)%Z then f
        else if s then Z2F (- (q + 1)) else Z2F q
  | _ => f
  end.

Definition Math_abs (f : float) : float := abs f.
Definition Math_sqrt (f : float) : float := sqrt f.

(** [Math.pow] is implementation-approximated in ECMAScript.  The source
    calls it with the literal exponents 2, 3, 4, 5, 6 and 16 only; for a
    natural exponent it is modelled by iterated correctly rounded
    multiplication, which agrees with ECMAScript on NaN, the infinities and
    the zeros for these exponents.  An engine that rounds the power once
    can differ from it in the last bits of a value; signs, NaN and
    comparisons with a margin do not depend on those bits. *)
Fixpoint Math_pow (x : float) (n : nat) : float :=
  match n with
  | O => 1
  | S n' => x * Math_pow x n'
  end.

(** [Math.min] and [Math.max] of two Numbers: NaN is contagious and
    [-0] is below [+0]. *)
Definition min2 (a b : float) : float :=
  if is_nan a || is_nan b then nan
  else if a <? b then a
  else if b <? a then b
  else if get_sign a then a else b.

Definition max2 (a b : float) : float :=
  if is_nan a || is_nan b then nan
  else if a <? b then b
  else if b <? a then a
  else if get_sign a then b else a.

(* ===================================================================== *)
(** * Numeric strings                                                     *)
(* ===================================================================== *)

(** [StringToNumber] of ECMAScript on strings of one-byte code units:
    white space is trimmed; the empty string is 0; an optionally signed
    decimal literal ([Infinity], digits with an optional fraction and an
    optional exponent) or an unsigned [0x], [0o] or [0b] integer is
    rounded to the nearest Number; everything else is NaN. *)
Module StrNum.

Definition is_space (c : ascii) : bool :=
  let n := nat_of_ascii c in
  ((9 <=? n) && (n <=? 13))%nat || (n =? 32)%nat || (n =? 160)%nat.

Fixpoint ltrim (s : list ascii) : list ascii :=
  match s with
  | c :: s' => if is_space c then ltrim s' else s
  | [] => []
  end.

Definition trim (s : list ascii) : list ascii := rev (ltrim (rev (ltrim s))).

Definition digit (radix : Z) (c : ascii) : option Z :=
  let n := Z.of_nat (nat_of_ascii c) in
  let d := if ((48 <=? n) && (n <=? 57))%Z then Some (n - 48)%Z
           else if ((97 <=? n) && (n <=? 102))%Z then Some (n - 87)%Z
           else if ((65 <=? n) && (n <=? 70))%Z then Some (n - 55)%Z
           else None in
  match d with
  | Some v => if (v <? radix)%Z then Some v else None
  | None => None
  end.

(** The longest prefix of digits: its value, its length, and the rest. *)
Fixpoint digits (radix : Z) (acc : Z) (len : nat) (s : list ascii)
  : Z * nat * list ascii :=
  match s with
  | c :: s' =>
      match digit radix c with
      | Some d => digits radix (acc * radix + d)%Z (S len) s'
      | None => (acc, len, s)
      end
  | [] => (acc, len, [])
  end.

(** The Number nearest to [m * 10^e], for [0 <= m]. *)
Definition decimal (m e : Z) : float :=
  if (m =? 0)%Z then 0
  else if (0 <=? e)%Z then Z2F (m * 10 ^ e)
  else
    let d := (10 ^ (- e))%Z in
    let s := Z.max 0 (64 + Z.log2 d - Z.log2 m) in
    let n := Z.shiftl m s in
    let q := (n / d)%Z in
    let sticky := if (n mod d =? 0)%Z then 0%Z else 1%Z in
    SF2Prim (binary_normalize prec emax (2 * q + sticky) (- s - 1) false).

Definition exponent (s : list ascii) : option Z :=
  match s with
  | [] => Some 0%Z
  | c :: s' =>
      if (nat_of_ascii c =? 101)%nat || (nat_of_ascii c =? 69)%nat then
        let '(neg, s'') :=
          match s' with
          | "+"%char :: t => (false, t)
          | "-"%char :: t => (true, t)
          | _ => (false, s')
          end in
        match digits 10 0 0 s'' with
        | (_, O, _) => None
        | (v, _, []) => Some (if neg then (- v)%Z else v)
        | _ => None
        end
      else None
  end.

Definition unsigned_decimal (s : list ascii) : option float :=
  if String.eqb (string_of_list_ascii s) "Infinity" then Some infinity
  else
    let '(ip, il, r) := digits 10 0 0 s in
    let '(m, fl, r') :=
      match r with
      | "."%char :: t => let '(v, l, t') := digits 10 ip 0 t in (v, l, t')
      | _ => (ip, O, r)
      end in
    let dotted := match r with "."%char :: _ => true | _ => false end in
    if ((il =? 0) && (fl =? 0))%nat then None
    else if ((il =? 0)%nat && negb dotted) then None
    else
      match exponent r' with
      | Some e => Some (decimal m (e - Z.of_nat fl))
      | None => None
      end.

Definition radix_literal (s : list ascii) : option float :=
  match s with
  | "0"%char :: p :: t =>
      let r := match p with
               | "x"%char | "X"%char => Some 16%Z
               | "o"%char | "O"%char => Some 8%Z
               | "b"%char | "B"%char => Some 2%Z
               | _ => None
               end in
      match r with
      | Some radix =>
          match digits radix 0 0 t with
          | (_, O, _) => None
          | (v, _, []) => Some (Z2F v)
          | _ => None
          end
      | None => None
      end
  | _ => None
  end.

Definition StringToNumber (str : string) : float :=
  let s := trim (list_ascii_of_string str) in
  match s with
  | [] => 0
  | c :: t =>
      match radix_literal s with
      | Some f => f
      | None =>
          let r := match c with
                   | "+"%char => option_map (fun f => f) (unsigned_decimal t)
                   | "-"%char => option_map opp (unsigned_decimal t)
                   | _ => unsigned_decimal s
                   end in
          match r with
          | Some f => f
          | None => nan
          end
      end
  end.

End StrNum.

(* ===================================================================== *)
(** * Values and coercions                                                *)
(* ===================================================================== *)

(** The values a sample or a group set can hold.  An array is the list of
    its elements and an object the list of its own properties. *)
Inductive value : Type :=
  | Undefined
  | Null
  | Bool (b : bool)
  | Num (f : float)
  | Str (s : string)
  | Arr (l : list value)
  | Obj (fields : list (string * value)).

(** [ToNumber].  An array converts through its [join]: the empty array
    through the empty string, an array of two or more elements through a
    string with a comma (never numeric), and a one-element array through
    the string of its element, which reads back as the Number it came from
    except that [-0] prints as ["0"].  A plain object prints as
    ["[object Object]"]. *)
Fixpoint ToNumber (v : value) : float :=
  match v with
  | Undefined => nan
  | Null => 0
  | Bool b => if b then 1 else 0
  | Num f => f
  | Str s => StrNum.StringToNumber s
  | Arr [] => 0
  | Arr [w] =>
      match w with
      | Undefined | Null => 0
      | Bool _ => nan
      | Num f => if is_zero f then 0 else f
      | Str s => StrNum.StringToNumber s
      | Arr _ => ToNumber w
      | Obj _ => nan
      end
  | Arr _ => nan
  | Obj _ => nan
  end.

(** The global [isNaN]. *)
Definition isNaN (v : value) : bool := is_nan (ToNumber v).

Definition Array_isArray (v : value) : bool :=
  match v with Arr _ => true | _ => false end.

(** [v === null], [v === undefined] and [v === 'null']. *)
Definition is_null (v : value) : bool :=
  match v with Null => true | _ => false end.

Definition is_undefined (v : value) : bool :=
  match v with Undefined => true | _ => false end.

Definition is_str (s : string) (v : value) : bool :=
  match v with Str s' => String.eqb s' s | _ => false end.

(** [ToInt32] of a boolean, as the bitwise operators see it, and the
    truthiness of the integer a bitwise operator returns. *)
Definition bool_to_int32 (b : bool) : Z := if b then 1%Z else 0%Z.
Definition int32_truthy (z : Z) : bool := negb (z =? 0)%Z.

(** [x[k]] on a dense array for a Number key [k]: an element when [k] is an
    integer within the array ([-0] is the index 0), [undefined] otherwise. *)
Definition array_get (x : list value) (k : float) : value :=
  match F2Z k with
  | Some z =>
      if ((0 <=? z) && (z <? Z.of_nat (length x)))%Z
      then default Undefined (x !! Z.to_nat z)
      else Undefined
  | None => Undefined
  end.

(* ===================================================================== *)
(** * Numeric coercion layer                                              *)
(* ===================================================================== *)

Definition isNumber (x : value) : bool := negb (isNaN x).

Definition makeNumeric (x : value) : value :=
  if is_null x then Null
  else if isNumber x then Num (ToNumber x)
  else Null.

(** [countNull]: the loop keeps an integer counter; the test combines the
    two strict comparisons with the bitwise [|]. *)
Definition countNull (x : list value) : nat :=
  fold_left
    (fun nullCount xi =>
       if int32_truthy (Z.lor (bool_to_int32 (is_null xi))
                              (bool_to_int32 (is_str "null" xi)))
       then (nullCount + 1)%nat else nullCount)
    x 0%nat.

(* ===================================================================== *)
(** * Descriptive layer (read-only part)                                  *)
(* ===================================================================== *)

Definition mean (x : list value) : float :=
  let x := map makeNumeric x in
  let n := N2F (length x) in
  let sum := fold_left (fun sum xi => sum + ToNumber xi) x 0 in
  let m := sum / n in
  m.

Definition variance (x : list value) : float :=
  let n := N2F (length x) in
  let m := mean x in
  let diff := fold_left (fun diff xi => diff + Math_pow (ToNumber xi - m) 2) x 0 in
  let v := diff / n in
  v.

(* ===================================================================== *)
(** * Distribution approximations                                         *)
(* ===================================================================== *)

Definition a1 : float := 0.049867347.
Definition a2 : float := 0.0211410061.
Definition a3 : float := 0.0032776263.
Definition a4 : float := 0.0000380036.
Definition a5 : float := 0.0000488906.
Definition a6 : float := 0.000005383.

(** The expression for [p], which [fDistribution] and [tDistribution] both
    spell out in full. *)
Definition tail (x : float) : float :=
  2 * (1 / (2 * Math_pow (1 + a1 * x + a2 * Math_pow x 2 + a3 * Math_pow x 3 +
    a4 * Math_pow x 4 + a5 * Math_pow x 5 + a6 * Math_pow x 6) 16)).

Definition fDistribution (f df1 df2 : float) : float :=
  let x := (f - (df2 / (df2 - 2))) /
           ((df2 / (df2 - 2)) * Math_sqrt ((2 * (df1 + df2 - 2)) / (df1 * (df2 - 4)))) in
  let p := tail x in
  p.

Definition tDistribution (df t : float) : float :=
  let x := t * (1 - 1 / (4 * df)) / Math_sqrt (1 + Math_pow t 2 / (2 * df)) in
  let p := tail x in
  p.

(* ===================================================================== *)
(** * Inferential layer                                                   *)
(* ===================================================================== *)

Definition degreesOfFreedom (x y : list value) : float :=
  let nx := N2F (length x) in
  let ny := N2F (length y) in
  let xVar := variance x in
  let yVar := variance y in
  let numerator := Math_pow (xVar / nx + yVar / ny) 2 in
  let denominator := (Math_pow (xVar / nx) 2 / (nx - 1)) + (Math_pow (yVar / ny) 2 / (ny - 1)) in
  let df := numerator / denominator in
  df.

(** The callback of the two [filter] calls of [tTest]. *)
Definition present (a : value) : bool := negb (is_null a) && negb (is_undefined a).

Definition tTest (x y : list value) : float :=
  let x := List.filter present x in
  let y := List.filter present y in
  let nx := length x in
  let ny := length y in
  if ((3 <=? nx) && (3 <=? ny))%nat then
    let xMean := mean x in
    let yMean := mean y in
    let xVar := variance x in
    let yVar := variance y in
    let t := (xMean - yMean) / (Math_sqrt (xVar / N2F nx + yVar / N2F ny)) in
    let t := Math_abs t in
    let df := degreesOfFreedom x y in
    let answer := tDistribution df t in
    answer
  else nan.

(** The first loop of [pearsonCorrelation]: [for (c in y)] visits the
    indices of the dense array [y] in ascending order and pushes the
    coerced pair when neither entry coerces to NaN. *)
Definition keepPairs (x y : list value) : list float * list float :=
  fold_left
    (fun '(newX, newY) c =>
       let yc := default Undefined (y !! c) in
       let xc := default Undefined (x !! c) in
       if negb (isNaN yc) && negb (isNaN xc)
       then (newX ++ [ToNumber xc], newY ++ [ToNumber yc])
       else (newX, newY))
    (seq 0 (length y)) ([], []).

(** The five running sums of the second loop. *)
Record sums : Type := Sums {
  xSum : float;
  ySum : float;
  xSquaredSum : float;
  ySquaredSum : float;
  xyProd : float
}.

(** [a[c]] on an array of Numbers, as an operand of arithmetic. *)
Definition num_get (a : list float) (c : nat) : float := default nan (a !! c).

Definition sumLoop (newX newY : list float) : sums :=
  fold_left
    (fun s c =>
       {| xSum := xSum s + num_get newX c;
          xSquaredSum := xSquaredSum s + Math_pow (num_get newX c) 2;
          ySum := ySum s + num_get newY c;
          ySquaredSum := ySquaredSum s + Math_pow (num_get newY c) 2;
          xyProd := xyProd s + num_get newX c * num_get newY c |})
    (seq 0 (length newY)) (Sums 0 0 0 0 0).

Definition pearsonCorrelation (x y : list value) : value :=
  if negb (length x =? length y)%nat then Str "failed"
  else
    let '(newX, newY) := keepPairs x y in
    if (10 <? length newY)%nat then
      let n := N2F (length newY) in
      let s := sumLoop newX newY in
      let numerator := xyProd s - xSum s * ySum s / n in
      let denominator := Math_sqrt (xSquaredSum s - Math_pow (xSum s) 2 / n) *
                         (Math_sqrt (ySquaredSum s - Math_pow (ySum s) 2 / n)) in
      let r := numerator / denominator in
      let df := N2F (length newY) - 2 in
      let t := Math_abs (r / (Math_sqrt ((1 - Math_pow r 2) / df))) in
      let p := tDistribution df t in
      Obj [("r"%string, Num r); ("p"%string, Num p)]
    else Str "failed".

Definition sumSquaredErrors (data : list (list value)) : float :=
  let means := map mean data in
  let se :=
    imap (fun i datai =>
            let seSample := map (fun x => Math_pow (ToNumber x - num_get means i) 2) datai in
            fold_left (fun accumulator currentValue => accumulator + currentValue) seSample 0)
         data in
  let sse := fold_left (fun accumulator currentValue => accumulator + currentValue) se 0 in
  sse.

Definition sumSquaredTreatment (overallMean : float) (means : list float) : float :=
  let sst := fold_left (fun accumulator currentValue =>
                          accumulator + Math_pow (currentValue - overallMean) 2) means 0 in
  let sst := sst * (N2F (length means) - 1) in
  sst.

Definition fStatistic (x : list (list value)) (m n : float) : float :=
  let means := map mean x in
  let overallMean := mean (map Num means) in
  let sse := sumSquaredErrors x in
  let sst := sumSquaredTreatment overallMean means in
  let mse := sse / (n - m) in
  let mst := sst / (m - 1) in
  let f := mst / mse in
  f.

(** The elements of an array all of whose elements are arrays, as lists:
    what [x] is known to be once [subArrayTest.every(...)] has passed. *)
Fixpoint groups (x : list value) : option (list (list value)) :=
  match x with
  | [] => Some []
  | Arr g :: x' => option_map (cons g) (groups x')
  | _ :: _ => None
  end.

(** Once the [every] test has passed, [groups] cannot fail (lemma
    [groups_total]); the last [Bool false] is there for totality only. *)
Definition anova (x : value) : value :=
  match x with
  | Arr x =>
      let subArrayTest := map Array_isArray x in
      if negb (forallb (fun b => b) subArrayTest) then Bool false
      else
        match groups x with
        | Some x =>
            let m := N2F (length x) in
            let n := Z2F (fold_left (fun accumulator currentValue =>
                                       (accumulator + Z.of_nat (length currentValue))%Z) x 0%Z) in
            let df1 := m - 1 in
            let df2 := n - 1 in
            let f := fStatistic x m n in
            let p := fDistribution f df1 df2 in
            Num p
        | None => Bool false
        end
  | _ => Bool false
  end.

(* ===================================================================== *)
(** * Array objects in a store                                            *)
(* ===================================================================== *)

(** An array object is known by its address; the store maps the addresses
    allocated so far to the elements of their arrays.  A computation takes
    the store and returns its result with the store it leaves. *)
Abbreviation loc := nat.
Abbreviation store := (list (list value)).
Definition M (A : Type) : Type := store -> A * store.

Definition ret {A} (a : A) : M A := fun h => (a, h).
Definition bind {A B} (c : M A) (k : A -> M B) : M B :=
  fun h => let '(a, h') := c h in k a h'.

Notation "'let*' x ':=' c 'in' k" := (bind c (fun x => k))
  (at level 10, x name, c at level 100, k at level 200).

(** The elements of the array at [x] (none at an address never allocated). *)
Definition elements (h : store) (x : loc) : list value := default [] (h !! x).

Definition read (x : loc) : M (list value) := fun h => (elements h x, h).

(** [x.map(f)] allocates a new array. *)
Definition array_map (f : value -> value) (x : loc) : M loc :=
  fun h => (length h, h ++ [map f (elements h x)]).

(** [Array.prototype.sort] with a comparator: a stable sort in which [a]
    goes after [b] when [comparefn(a, b) > 0] (a NaN outcome counts as 0). *)
Fixpoint insert_sorted (comparefn : value -> value -> float) (a : value)
  (l : list value) : list value :=
  match l with
  | [] => [a]
  | b :: l' => if 0 <? comparefn a b then b :: insert_sorted comparefn a l' else a :: l
  end.

Definition sorted_by (comparefn : value -> value -> float) (l : list value) : list value :=
  fold_right (insert_sorted comparefn) [] l.

(** [x.sort(comparefn)] reorders the array at [x] in place and returns [x]. *)
Definition array_sort (comparefn : value -> value -> float) (x : loc) : M loc :=
  fun h => (x, <[x := sorted_by comparefn (elements h x)]> h).

(** [Math.min.apply(Math, x)] and [Math.max.apply(Math, x)]. *)
Definition Math_min (x : list value) : float :=
  fold_left min2 (map ToNumber x) infinity.

Definition Math_max (x : list value) : float :=
  fold_left max2 (map ToNumber x) neg_infinity.

(* ===================================================================== *)
(** * Descriptive layer (sorting part)                                    *)
(* ===================================================================== *)

(** In [x[base] + rest * ...] the left operand comes out of [makeNumeric],
    so it is a Number or [null] and [+] is the numeric addition. *)
Definition quantile (x : loc) (q : float) : M value :=
  let* x := array_map makeNumeric x in
  let* x := array_sort (fun a b => ToNumber a - ToNumber b) x in
  let* xs := read x in
  if (length xs =? 0)%nat then ret (Num 0)
  else
    let position := (N2F (length xs) - 1) * q in
    let base := Math_floor position in
    let rest := position - base in
    if negb (is_undefined (array_get xs base)) then
      ret (Num (ToNumber (array_get xs base) +
                rest * (ToNumber (array_get xs (base + 1)) - ToNumber (array_get xs base))))
    else ret (array_get xs base).

Definition median (x : loc) : M value := quantile x 0.5.

Definition summary (x : loc) (addQuantile : bool) : M value :=
  let* xs := read x in
  let minimum := Math_min xs in
  let maximum := Math_max xs in
  let m := mean xs in
  let* med := median x in
  let* xs' := read x in
  let nulls := countNull xs' in
  let result :=
    [("minimum"%string, Num minimum); ("maximum"%string, Num maximum);
     ("mean"%string, Num m); ("median"%string, med);
     ("null"%string, Num (N2F nulls))] in
  if addQuantile then
    let* q25 := quantile x 0.25 in
    let* q75 := quantile x 0.75 in
    ret (Obj (result ++ [("quantile 25%"%string, q25); ("quantile 75%"%string, q75)]))
  else ret (Obj result).


(* ===================================================================== *)
(** * Notions used in the statements                                      *)
(* ===================================================================== *)

(** An array literal of Numbers. *)
Definition nums (l : list float) : list value := map Num l.

Definition is_num (v : value) : bool :=
  match v with Num _ => true | _ => false end.

(** What an entry is after [makeNumeric] and [ToNumber]: [null] and the
    entries that coerce to NaN count as 0, every other entry as its
    Number. *)
Definition contribution (v : value) : float :=
  if is_null v then 0
  else if isNaN v then 0
  else ToNumber v.

(** [x] is an array all of whose elements are arrays. *)
Definition array_of_arrays (x : value) : Prop :=
  exists gs : list (list value), x = Arr (map Arr gs).

(** [x] is an array of at least two groups, each a non-empty array of
    Numbers. *)
Definition well_formed_groups (x : value) : bool :=
  match x with
  | Arr l =>
      (2 <=? length l)%nat &&
      forallb (fun g => match g with
                        | Arr (e :: es) => forallb is_num (e :: es)
                        | _ => false
                        end) l
  | _ => false
  end.

(** The sign bit of a Number, NaN having none. *)
Definition SFsgn (s : spec_float) : option bool :=
  match s with
  | S754_nan => None
  | S754_zero b | S754_infinity b | S754_finite b _ _ => Some b
  end.

Definition sgn (f : float) : option bool := SFsgn (Prim2SF f).

(** NaN, or a Number whose sign bit is clear. *)
Definition sign_clear (f : float) : Prop := sgn f = None \/ sgn f = Some false.

(** A product or a quotient is NaN or carries the exclusive or of the
    signs of its operands. *)
Definition sgn_xor (x y r : spec_float) : Prop :=
  SFsgn r = None \/
  exists a b, SFsgn x = Some a /\ SFsgn y = Some b /\ SFsgn r = Some (xorb a b).

(** The index-aligned pairs of [x] and [y] neither entry of which coerces
    to NaN, as pairs of Numbers, in the order of the arrays. *)
Definition surviving_pairs (x y : list value) : list (float * float) :=
  map (fun p => (ToNumber (fst p), ToNumber (snd p)))
      (List.filter (fun p => negb (isNaN (snd p)) && negb (isNaN (fst p)))
                   (combine x y)).

(** The sum of a list of Numbers, added from the left starting at 0. *)
Definition fsum (l : list float) : float := fold_left add l 0.

(** The step of the second loop of [pearsonCorrelation], on a pair of Numbers. *)
Definition add_pair (s : sums) (p : float * float) : sums :=
  {| xSum := xSum s + fst p;
     xSquaredSum := xSquaredSum s + Math_pow (fst p) 2;
     ySum := ySum s + snd p;
     ySquaredSum := ySquaredSum s + Math_pow (snd p) 2;
     xyProd := xyProd s + fst p * snd p |}.

(** Pearson's coefficient of a list of pairs by the sum-of-products
    formula. *)
Definition pearson_r (ps : list (float * float)) : float :=
  let n := N2F (length ps) in
  let xs := map fst ps in
  let ys := map snd ps in
  let sq := fun a => Math_pow a 2 in
  (fsum (map (fun p => fst p * snd p) ps) - fsum xs * fsum ys / n) /
  (Math_sqrt (fsum (map sq xs) - Math_pow (fsum xs) 2 / n) *
   Math_sqrt (fsum (map sq ys) - Math_pow (fsum ys) 2 / n)).

(** The significance [pearsonCorrelation] attaches to a coefficient [r]
    computed from [n] pairs. *)
Definition pearson_p (n : nat) (r : float) : float :=
  let df := N2F n - 2 in
  tDistribution df (Math_abs (r / Math_sqrt ((1 - Math_pow r 2) / df))).

(** Ascending numeric order of an array. *)
Fixpoint ascending (l : list value) : bool :=
  match l with
  | a :: (b :: _) as t => (ToNumber a <=? ToNumber b) && ascending t
  | _ => true
  end.

(** [h'] is [h] followed by newly allocated arrays. *)
Definition extends (h h' : store) : Prop := exists fresh : store, h' = h ++ fresh.

(** No element of [l] is immediately followed by one that [comparefn] puts
    before it. *)
Fixpoint ordered_by (comparefn : value -> value -> float) (l : list value) : bool :=
  match l with
  | a :: (b :: _) as t => negb (0 <? comparefn a b) && ordered_by comparefn t
  | _ => true
  end.

(** The comparator [quantile] sorts with: [function(a, b) { return a - b; }]. *)
Definition by_difference (a b : value) : float := ToNumber a - ToNumber b.

(** [o[k]] for an own property [k] of a plain object. *)
Fixpoint assoc (k : string) (fields : list (string * value)) : option value :=
  match fields with
  | [] => None
  | (k', v) :: fields' => if String.eqb k' k then Some v else assoc k fields'
  end.

Definition field (k : string) (o : value) : option value :=
  match o with Obj fields => assoc k fields | _ => None end.

(** The names of the own properties of a plain object, in creation order. *)
Definition keys (o : value) : list string :=
  match o with Obj fields => map fst fields | _ => [] end.

(** A pair with its components exchanged. *)
Definition swap (p : float * float) : float * float := (snd p, fst p).

(** Closed statements are settled by evaluating both sides. *)
Ltac by_evaluation := vm_compute; reflexivity.

(* ===================================================================== *)
(** * The runtime model on examples                                       *)
(* ===================================================================== *)

Lemma StringToNumber_examples :
  map StrNum.StringToNumber
      ["12"; " 12.5 "; "-3"; "abc"; "null"; ""; "1e3"; ".5"; "0x1F"; "Infinity"; "12px"]%string
  = [12; 12.5; -3; nan; nan; 0; 1000; 0.5; 31; infinity; nan].
Proof. by_evaluation. Qed.

Lemma ToNumber_examples :
  map ToNumber [Undefined; Null; Bool true; Str "7"; Arr []; Arr [Num 5];
                Arr [Num 1; Num 2]; Obj []]
  = [nan; 0; 1; 7; 0; 5; nan; nan].
Proof. by_evaluation. Qed.

Lemma Math_floor_examples :
  map Math_floor [1.5; -1.5; 0.5; -0.5; 3; nan; infinity] = [1; -2; 0; -1; 3; nan; infinity].
Proof. by_evaluation. Qed.

Lemma array_get_examples :
  map (array_get (nums [10; 20; 30])) [0; 2; 3; -1; 1.5; nan; -0]
  = [Num 10; Num 30; Undefined; Undefined; Undefined; Undefined; Num 10].
Proof. by_evaluation. Qed.

(** The descriptive layer and the approximations on the inputs of the
    documentation. *)
Lemma descriptive_examples :
  variance (nums [2; 2; 2; 2]) = 0
  /\ tDistribution 10 0 = 1
  /\ tTest (nums [1; 2; 3]) (nums [1; 2; 3]) = 1
  /\ fst (summary 0%nat false [nums [3; 1; 2]])
     = Obj [("minimum"%string, Num 1); ("maximum"%string, Num 3);
            ("mean"%string, Num 2); ("median"%string, Num 2);
            ("null"%string, Num 0)].
Proof.
  split; [by_evaluation|].
  split; [by_evaluation|].
  split; by_evaluation.
Qed.

(* ===================================================================== *)
(** * Properties of the coercion layer                                    *)
(* ===================================================================== *)

Lemma is_null_spec (v : value) : is_null v = true <-> v = Null.
Proof. destruct v; simpl; split; congruence. Qed.

Lemma is_undefined_spec (v : value) : is_undefined v = true <-> v = Undefined.
Proof. destruct v; simpl; split; congruence. Qed.

Lemma is_str_spec (s : string) (v : value) : is_str s v = true <-> v = Str s.
Proof.
  destruct v; simpl; try (split; congruence).
  rewrite String.eqb_eq. split; congruence.
Qed.

(** On the two integers a comparison can give, the bitwise [|] followed by
    the truthiness test is the logical disjunction. *)
Lemma bitor_truthy (a b : bool) :
  int32_truthy (Z.lor (bool_to_int32 a) (bool_to_int32 b)) = a || b.
Proof. destruct a, b; reflexivity. Qed.

Lemma ToNumber_makeNumeric (v : value) : ToNumber (makeNumeric v) = contribution v.
Proof.
  unfold makeNumeric, contribution, isNumber.
  destruct (is_null v); [reflexivity|].
  destruct (isNaN v); reflexivity.
Qed.

(** [makeNumeric] returns [null] or a Number that is not NaN. *)
Lemma makeNumeric_cases (v : value) :
  makeNumeric v = Null \/ exists f, makeNumeric v = Num f /\ is_nan f = false.
Proof.
  unfold makeNumeric, isNumber, isNaN.
  destruct (is_null v); [now left|].
  destruct (is_nan (ToNumber v)) eqn:E; simpl; [now left|].
  right. eauto.
Qed.

Lemma countNull_acc (x : list value) (k : nat) :
  fold_left
    (fun nullCount xi =>
       if int32_truthy (Z.lor (bool_to_int32 (is_null xi))
                              (bool_to_int32 (is_str "null" xi)))
       then (nullCount + 1)%nat else nullCount) x k
  = (k + length (List.filter (fun e => is_null e || is_str "null" e) x))%nat.
Proof.
  revert k. induction x as [|e x IH]; intros k; simpl.
  - lia.
  - rewrite IH, bitor_truthy.
    destruct (is_null e || is_str "null" e); simpl; lia.
Qed.

(** C8. [countNull x] is the number of entries [e] of [x] with [e === null]
    or [e === 'null'], the two comparisons being combined as a logical
    disjunction although the source writes the bitwise [|]; an entry is
    counted exactly when it is [null] or the string ["null"], and
    [countNull([1, null, 3, "null"])] is 2. *)
Theorem countNull_counts_null_entries :
  (forall x : list value,
     countNull x = length (List.filter (fun e => is_null e || is_str "null" e) x))
  /\ (forall e : value,
        is_null e || is_str "null" e = true <-> (e = Null \/ e = Str "null"))
  /\ countNull [Num 1; Null; Num 3; Str "null"] = 2%nat.
Proof.
  split; [|split].
  - intros x. unfold countNull. now rewrite countNull_acc.
  - intros e. rewrite orb_true_iff, is_null_spec, is_str_spec. tauto.
  - reflexivity.
Qed.

(* ===================================================================== *)
(** * Properties of [mean]                                                *)
(* ===================================================================== *)

(** C4 (as amended). [mean x] is the sum of the coerced entries divided by
    [x.length], where [null] and every entry that coerces to NaN contribute
    0 to the sum and still count in the divisor; [mean([1,2,3])] is 2 and
    [mean([])] is NaN. *)
Theorem mean_sum_of_contributions :
  (forall x : list value,
     mean x = fold_left (fun sum xi => sum + contribution xi) x 0 / N2F (length x))
  /\ contribution Null = 0
  /\ (forall v : value, isNaN v = true -> contribution v = 0)
  /\ (forall v : value, is_null v = false -> isNaN v = false -> contribution v = ToNumber v)
  /\ mean (nums [1; 2; 3]) = 2
  /\ is_nan (mean []) = true.
Proof.
  split; [|split; [|split; [|split; [|split]]]].
  - intros x. unfold mean. rewrite length_map. f_equal.
    generalize 0 as acc. induction x as [|v x IH]; intros acc; simpl.
    + reflexivity.
    + now rewrite ToNumber_makeNumeric, IH.
  - reflexivity.
  - intros v H. unfold contribution. rewrite H. now destruct (is_null v).
  - intros v H1 H2. unfold contribution. now rewrite H1, H2.
  - by_evaluation.
  - by_evaluation.
Qed.

Lemma mean_sum_of_contributions_witness :
  contribution (Str "abc") = 0 /\ contribution (Str "7") = 7.
Proof.
  split.
  - apply (proj1 (proj2 (proj2 mean_sum_of_contributions))). by_evaluation.
  - apply (proj1 (proj2 (proj2 (proj2 mean_sum_of_contributions)))); by_evaluation.
Defined.

(** C4 (as stated) fails: [mean([1, null, 3])] and [mean([1, "abc", 3])]
    have a [null], respectively a non-numeric, entry and are 4/3, not
    NaN. *)
Lemma mean_with_null_is_not_NaN :
  In Null [Num 1; Null; Num 3]
  /\ mean [Num 1; Null; Num 3] = 4 / 3
  /\ is_nan (mean [Num 1; Null; Num 3]) = false
  /\ isNaN (Str "abc") = true
  /\ is_nan (mean [Num 1; Str "abc"; Num 3]) = false.
Proof.
  split; [simpl; tauto|].
  split; [by_evaluation|].
  split; [by_evaluation|].
  split; by_evaluation.
Qed.

(* ===================================================================== *)
(** * Properties of [tTest]                                               *)
(* ===================================================================== *)

(** C5 (as amended). [tTest x y] removes the entries equal to [null] or
    [undefined] from both arrays; when fewer than 3 entries remain in
    either, it returns NaN; otherwise it returns
    [tDistribution(degreesOfFreedom(x', y'), |t|)] for the Welch statistic
    [t] of the filtered arrays [x'] and [y'], a value that can itself be
    NaN. *)
Theorem tTest_threshold (x y : list value) :
  let x' := List.filter present x in
  let y' := List.filter present y in
  (forall a, In a x' <-> In a x /\ a <> Null /\ a <> Undefined)
  /\ (forall a, In a y' <-> In a y /\ a <> Null /\ a <> Undefined)
  /\ ((length x' < 3 \/ length y' < 3)%nat -> is_nan (tTest x y) = true)
  /\ ((3 <= length x' /\ 3 <= length y')%nat ->
      tTest x y =
        tDistribution (degreesOfFreedom x' y')
          (Math_abs ((mean x' - mean y') /
                     Math_sqrt (variance x' / N2F (length x') +
                                variance y' / N2F (length y'))))).
Proof.
  intros x' y'.
  assert (P : forall l a, In a (List.filter present l)
                          <-> In a l /\ a <> Null /\ a <> Undefined).
  { intros l a. rewrite filter_In. unfold present.
    rewrite andb_true_iff, !negb_true_iff.
    destruct a; simpl; intuition congruence. }
  split; [apply P|]. split; [apply P|]. split.
  - intros H. unfold tTest. fold x' y'.
    destruct (Nat.leb_spec 3 (length x')); destruct (Nat.leb_spec 3 (length y'));
      simpl; try reflexivity; lia.
  - intros [Hx Hy]. unfold tTest. fold x' y'.
    destruct (Nat.leb_spec 3 (length x')); destruct (Nat.leb_spec 3 (length y'));
      simpl; try reflexivity; lia.
Qed.

Lemma tTest_threshold_witness :
  is_nan (tTest [Num 1; Null; Num 2] (nums [5; 6; 7; 9])) = true.
Proof.
  apply (tTest_threshold [Num 1; Null; Num 2] (nums [5; 6; 7; 9])).
  left. simpl. lia.
Defined.

(** C5 (as stated) fails: two samples of three equal entries keep three
    entries each, and [tTest] returns NaN all the same (its statistic is
    0/0). *)
Lemma tTest_NaN_with_enough_entries :
  length (List.filter present (nums [1; 1; 1])) = 3%nat
  /\ is_nan (tTest (nums [1; 1; 1]) (nums [1; 1; 1])) = true.
Proof. split; by_evaluation. Qed.

(* ===================================================================== *)
(** * Sign of products, quotients and even powers                         *)
(* ===================================================================== *)

Section Signs.

Lemma binary_round_aux_sgn (s : bool) (m e : Z) (l : location) :
  SFsgn (binary_round_aux prec emax s m e l) = None \/
  SFsgn (binary_round_aux prec emax s m e l) = Some s.
Proof.
  unfold binary_round_aux.
  destruct (shr_fexp prec emax m e l) as [mrs' e'].
  destruct (shr_fexp prec emax _ e' loc_Exact) as [mrs'' e''].
  destruct (shr_m mrs''); simpl; auto.
  destruct (Z.leb e'' (Z.sub emax prec)); simpl; auto.
Qed.

Lemma SFmul_sgn (x y : spec_float) : sgn_xor x y (SFmul prec emax x y).
Proof.
  unfold sgn_xor.
  destruct x as [sx|sx| |sx mx ex], y as [sy|sy| |sy my ey]; simpl;
    try (left; reflexivity); try (right; eauto; fail).
  destruct (binary_round_aux_sgn (xorb sx sy) (Zpos (Pos.mul mx my)) (Z.add ex ey) loc_Exact)
    as [H|H]; [left; exact H | right; eauto].
Qed.

Lemma SFdiv_sgn (x y : spec_float) : sgn_xor x y (SFdiv prec emax x y).
Proof.
  unfold sgn_xor.
  destruct x as [sx|sx| |sx mx ex], y as [sy|sy| |sy my ey]; simpl;
    try (left; reflexivity); try (right; eauto; fail).
  destruct (SFdiv_core_binary prec emax (Zpos mx) ex (Zpos my) ey) as [[mz ez] lz].
  destruct (binary_round_aux_sgn (xorb sx sy) mz ez lz)
    as [H|H]; [left; exact H | right; eauto].
Qed.

Lemma mul_sgn (x y : float) : sgn_xor (Prim2SF x) (Prim2SF y) (Prim2SF (x * y)).
Proof. rewrite mul_spec. apply SFmul_sgn. Qed.

Lemma div_sgn (x y : float) : sgn_xor (Prim2SF x) (Prim2SF y) (Prim2SF (x / y)).
Proof. rewrite div_spec. apply SFdiv_sgn. Qed.

Lemma sgn_xor_clear (x y r : spec_float) :
  sgn_xor x y r ->
  SFsgn x = None \/ SFsgn x = Some false ->
  SFsgn y = None \/ SFsgn y = Some false ->
  SFsgn r = None \/ SFsgn r = Some false.
Proof.
  intros [H|(sa & sb & Ea & Eb & H)] Hx Hy; [now left|].
  rewrite H. rewrite Ea in Hx. rewrite Eb in Hy.
  destruct Hx as [Hx|Hx]; [discriminate|]. destruct Hy as [Hy|Hy]; [discriminate|].
  injection Hx as ->. injection Hy as ->. now right.
Qed.

Lemma mul_sign_clear (a b : float) :
  sign_clear a -> sign_clear b -> sign_clear (a * b).
Proof. exact (sgn_xor_clear _ _ _ (mul_sgn a b)). Qed.

Lemma div_sign_clear (a b : float) :
  sign_clear a -> sign_clear b -> sign_clear (a / b).
Proof. exact (sgn_xor_clear _ _ _ (div_sgn a b)). Qed.

(** Multiplying twice by the same Number keeps a clear sign. *)
Lemma mul_twice_sign_clear (x r : float) :
  sign_clear r -> sign_clear (x * (x * r)).
Proof.
  unfold sign_clear, sgn. intros Hr.
  destruct (mul_sgn x (x * r)) as [H|(sa & sb & Ea & Eb & H)]; [now left|].
  destruct (mul_sgn x r) as [H'|(sa' & sr & Ea' & Er & H')]; [congruence|].
  rewrite H. right. f_equal.
  assert (sa' = sa) by congruence. subst sa'.
  assert (sb = xorb sa sr) by congruence. subst sb.
  assert (sr = false) by (destruct Hr; congruence). subst sr.
  now destruct sa.
Qed.

Lemma Math_pow_even_sign_clear (x : float) (k : nat) :
  sign_clear (Math_pow x (2 * k)).
Proof.
  induction k as [|k IH].
  - right. reflexivity.
  - replace (2 * S k)%nat with (S (S (2 * k))) by lia.
    simpl Math_pow. now apply mul_twice_sign_clear.
Qed.

Lemma tail_sign_clear (x : float) : sign_clear (tail x).
Proof.
  unfold tail.
  assert (H2 : sign_clear 2) by (right; reflexivity).
  assert (H1 : sign_clear 1) by (right; reflexivity).
  apply mul_sign_clear; [exact H2|].
  apply div_sign_clear; [exact H1|].
  apply mul_sign_clear; [exact H2|].
  apply (Math_pow_even_sign_clear _ 8).
Qed.

Lemma sgn_None_is_nan (p : float) : sgn p = None -> is_nan p = true.
Proof.
  unfold sgn, Prim2SF.
  destruct (is_nan p); [reflexivity|].
  destruct (is_zero p); [discriminate|].
  destruct (is_infinity p); [discriminate|].
  destruct (Z.frexp p) as [r e].
  destruct (shr_fexp prec emax _ _ loc_Exact) as [shr e'].
  destruct (shr_m shr); discriminate.
Qed.

Lemma sgn_clear_nonneg (p : float) : sgn p = Some false -> (0 <=? p) = true.
Proof.
  unfold sgn. intros H. rewrite leb_spec.
  change (Prim2SF 0) with (S754_zero false).
  destruct (Prim2SF p) as [s|s| |s m e]; simpl in H; try discriminate;
    injection H as ->; reflexivity.
Qed.

(** A Number with a clear sign is NaN or at least 0. *)
Lemma sign_clear_nonneg (p : float) :
  sign_clear p -> is_nan p = true \/ (0 <=? p) = true.
Proof.
  intros [H|H]; [left; now apply sgn_None_is_nan | right; now apply sgn_clear_nonneg].
Qed.

End Signs.

(* ===================================================================== *)
(** * Properties of [anova]                                               *)
(* ===================================================================== *)

Lemma groups_map_Arr (gs : list (list value)) : groups (map Arr gs) = Some gs.
Proof. induction gs as [|g gs IH]; simpl; [reflexivity | now rewrite IH]. Qed.

Lemma groups_Some (l : list value) (gs : list (list value)) :
  groups l = Some gs -> l = map Arr gs.
Proof.
  revert gs. induction l as [|e l IH]; intros gs; simpl.
  - intros [= <-]. reflexivity.
  - destruct e; try discriminate.
    destruct (groups l) as [gs'|]; simpl; [|discriminate].
    intros [= <-]. simpl. f_equal. now apply IH.
Qed.

Lemma isArray_map_Arr (gs : list (list value)) :
  forallb (fun b => b) (map Array_isArray (map Arr gs)) = true.
Proof. induction gs; simpl; auto. Qed.

(** After the [every] test has passed, every element is an array: the
    typed reading of the groups cannot fail. *)
Lemma groups_total (l : list value) :
  forallb (fun b => b) (map Array_isArray l) = true -> exists gs, groups l = Some gs.
Proof.
  induction l as [|e l IH]; simpl.
  - eauto.
  - rewrite andb_true_iff. intros [He Hl].
    destruct (IH Hl) as [gs Hgs]. rewrite Hgs.
    destruct e; try discriminate. simpl. eauto.
Qed.

Lemma isArray_some_not (l : list value) (e : value) :
  In e l -> Array_isArray e = false ->
  forallb (fun b => b) (map Array_isArray l) = false.
Proof.
  induction l as [|a l IH]; simpl; [tauto|].
  intros [->|Hin] He.
  - now rewrite He.
  - rewrite (IH Hin He). apply andb_false_r.
Qed.

(** On an array of arrays [anova] is the Number [fDistribution] gives for
    the F statistic of the groups. *)
Lemma anova_groups (gs : list (list value)) :
  anova (Arr (map Arr gs)) =
  let m := N2F (length gs) in
  let n := Z2F (fold_left (fun accumulator currentValue =>
                             (accumulator + Z.of_nat (length currentValue))%Z) gs 0%Z) in
  Num (fDistribution (fStatistic gs m n) (m - 1) (n - 1)).
Proof.
  unfold anova. rewrite isArray_map_Arr, groups_map_Arr. reflexivity.
Qed.

(** C7. [anova x] is the boolean [false] when [x] is not an array and when
    some element of [x] is not an array (so for [[1,2,3]]), and it is
    [false] for no array of arrays: it is [false] exactly when [x] is not
    an array of arrays. *)
Theorem anova_false_iff_not_array_of_arrays :
  (forall x : value, Array_isArray x = false -> anova x = Bool false)
  /\ (forall (l : list value) (e : value),
        In e l -> Array_isArray e = false -> anova (Arr l) = Bool false)
  /\ (forall x : value, array_of_arrays x -> anova x <> Bool false)
  /\ (forall x : value, anova x = Bool false <-> ~ array_of_arrays x)
  /\ anova (Arr (nums [1; 2; 3])) = Bool false.
Proof.
  assert (A : forall x, array_of_arrays x -> anova x <> Bool false).
  { intros x [gs ->]. rewrite anova_groups. discriminate. }
  split; [|split; [|split; [|split]]].
  - intros x Hx. destruct x; try reflexivity. discriminate.
  - intros l e Hin He. unfold anova. now rewrite (isArray_some_not l e Hin He).
  - exact A.
  - intros x. split.
    + intros Hf Ha. exact (A x Ha Hf).
    + intros Hn. destruct x; try reflexivity.
      unfold anova. destruct (forallb _ _) eqn:E; [|reflexivity]. simpl.
      destruct (groups_total l E) as [gs Hgs].
      exfalso. apply Hn. exists gs. f_equal. now apply groups_Some.
  - reflexivity.
Qed.

Lemma anova_false_iff_not_array_of_arrays_witness :
  anova (Arr [Arr (nums [1; 2]); Num 3]) = Bool false.
Proof.
  apply (proj1 (proj2 anova_false_iff_not_array_of_arrays)
               [Arr (nums [1; 2]); Num 3] (Num 3)).
  - simpl. tauto.
  - reflexivity.
Defined.

(** C10. The empty group set is an array of arrays, so [anova([])] is not
    the sentinel [false]: the computation goes on with [m = 0] and [n = 0]
    and returns NaN. *)
Theorem anova_empty_is_NaN :
  array_of_arrays (Arr [])
  /\ anova (Arr []) = Num (fDistribution (fStatistic [] 0 0) (0 - 1) (0 - 1))
  /\ anova (Arr []) = Num nan.
Proof.
  split; [exists []; reflexivity|].
  split; by_evaluation.
Qed.

Lemma well_formed_groups_array_of_arrays (x : value) :
  well_formed_groups x = true -> array_of_arrays x.
Proof.
  destruct x; simpl; try discriminate.
  rewrite andb_true_iff. intros [_ H].
  induction l as [|e l IH]; [exists []; reflexivity|].
  simpl in H. apply andb_true_iff in H as [He Hl].
  destruct (IH Hl) as [gs Hgs]. injection Hgs as ->.
  destruct e as [| | | | |g|]; try discriminate. exists (g :: gs). reflexivity.
Qed.

(** C3 (as amended). For an array of at least two groups, each a non-empty
    array of Numbers, [anova] returns a Number, the value of
    [fDistribution] at the F statistic, that is NaN or at least 0. *)
Theorem anova_number_not_negative (x : value) :
  well_formed_groups x = true ->
  exists p : float,
    anova x = Num p /\ (is_nan p = true \/ (0 <=? p) = true).
Proof.
  intros H. destruct (well_formed_groups_array_of_arrays x H) as [gs ->].
  rewrite anova_groups. cbv zeta. eexists. split; [reflexivity|].
  apply sign_clear_nonneg. unfold fDistribution. apply tail_sign_clear.
Qed.

Lemma anova_number_not_negative_witness :
  exists p : float,
    anova (Arr [Arr (nums [1; 2; 3; 4; 5]); Arr (nums [11; 12; 13; 14; 15])]) = Num p
    /\ (is_nan p = true \/ (0 <=? p) = true).
Proof.
  apply (anova_number_not_negative
           (Arr [Arr (nums [1; 2; 3; 4; 5]); Arr (nums [11; 12; 13; 14; 15])])).
  reflexivity.
Defined.

(** C3 (as stated) fails: for the two groups [[1]] and [[2]] the result is
    NaN, which is not within [0, 1], and for two equal groups of five it
    is above 1. *)
Lemma anova_outside_unit_interval :
  well_formed_groups (Arr [Arr (nums [1]); Arr (nums [2])]) = true
  /\ anova (Arr [Arr (nums [1]); Arr (nums [2])]) = Num nan
  /\ (0 <=? nan) = false
  /\ well_formed_groups (Arr [Arr (nums [1; 2; 3; 4; 5]); Arr (nums [1; 2; 3; 4; 5])]) = true
  /\ (exists p : float,
        anova (Arr [Arr (nums [1; 2; 3; 4; 5]); Arr (nums [1; 2; 3; 4; 5])]) = Num p
        /\ (p <=? 1) = false).
Proof.
  split; [reflexivity|].
  split; [by_evaluation|].
  split; [reflexivity|].
  split; [reflexivity|].
  eexists. split; by_evaluation.
Qed.

(* ===================================================================== *)
(** * NaN and zero in binary64 arithmetic                                 *)
(* ===================================================================== *)

Section Absorb.

Lemma Prim2SF_nan : Prim2SF nan = S754_nan.
Proof. reflexivity. Qed.

Lemma add_nan_r (a : float) : a + nan = nan.
Proof.
  apply Prim2SF_inj. rewrite add_spec, Prim2SF_nan.
  now destruct (Prim2SF a).
Qed.

Lemma sub_nan_l (a : float) : nan - a = nan.
Proof. apply Prim2SF_inj. now rewrite sub_spec, Prim2SF_nan. Qed.

Lemma mul_nan_r (a : float) : a * nan = nan.
Proof.
  apply Prim2SF_inj. rewrite mul_spec, Prim2SF_nan.
  now destruct (Prim2SF a).
Qed.

(** A Number between 0 and 1 is a zero or finite. *)
Lemma between_0_1_finite (q : float) :
  (0 <=? q) = true -> (q <=? 1) = true ->
  (exists s, Prim2SF q = S754_zero s) \/ (exists s m e, Prim2SF q = S754_finite s m e).
Proof.
  rewrite !leb_spec.
  change (Prim2SF 0) with (S754_zero false).
  change (Prim2SF 1) with (S754_finite false 4503599627370496 (-52)).
  destruct (Prim2SF q) as [s|s| |s m e]; simpl; try discriminate; eauto.
  destruct s; discriminate.
Qed.

(** The product of 0 and a Number between 0 and 1 is a zero. *)
Lemma zero_mul_between (q : float) :
  (0 <=? q) = true -> (q <=? 1) = true -> exists s, Prim2SF (0 * q) = S754_zero s.
Proof.
  intros H0 H1. rewrite mul_spec. change (Prim2SF 0) with (S754_zero false).
  destruct (between_0_1_finite q H0 H1) as [[s ->]|(s & m & e & ->)]; simpl; eauto.
Qed.

Lemma zero_add_1 (z : float) (s : bool) : Prim2SF z = S754_zero s -> z + 1 = 1.
Proof.
  intros H. apply Prim2SF_inj. rewrite add_spec, H.
  change (Prim2SF 1) with (S754_finite false 4503599627370496 (-52)).
  reflexivity.
Qed.

End Absorb.

(* ===================================================================== *)
(** * Properties of [pearsonCorrelation]                                  *)
(* ===================================================================== *)

Section Pearson.

Lemma surviving_pairs_nil_l (y : list value) : surviving_pairs [] y = [].
Proof. reflexivity. Qed.

Lemma surviving_pairs_nil_r (x : list value) : surviving_pairs x [] = [].
Proof. now destruct x. Qed.

Lemma surviving_pairs_cons (a b : value) (x y : list value) :
  surviving_pairs (a :: x) (b :: y) =
  if negb (isNaN b) && negb (isNaN a)
  then (ToNumber a, ToNumber b) :: surviving_pairs x y
  else surviving_pairs x y.
Proof.
  unfold surviving_pairs. simpl.
  now destruct (negb (isNaN b) && negb (isNaN a)).
Qed.

(** The loop over the indices from [k] on appends the surviving pairs of
    the two suffixes. *)
Lemma keepPairs_from (x y : list value) (n k : nat) (newX newY : list float) :
  n = (length y - k)%nat ->
  fold_left
    (fun '(newX, newY) c =>
       let yc := default Undefined (y !! c) in
       let xc := default Undefined (x !! c) in
       if negb (isNaN yc) && negb (isNaN xc)
       then (newX ++ [ToNumber xc], newY ++ [ToNumber yc])
       else (newX, newY))
    (seq k n) (newX, newY)
  = (newX ++ map fst (surviving_pairs (drop k x) (drop k y)),
     newY ++ map snd (surviving_pairs (drop k x) (drop k y))).
Proof.
  revert k newX newY. induction n as [|n IH]; intros k newX newY Hn.
  - rewrite (drop_ge y k) by lia. rewrite surviving_pairs_nil_r. simpl.
    now rewrite !app_nil_r.
  - assert (Hk : (k < length y)%nat) by lia.
    destruct (lookup_lt_is_Some_2 y k Hk) as [b Hb].
    rewrite (drop_S y b k Hb). simpl seq. simpl fold_left. rewrite Hb. simpl default.
    destruct (x !! k) as [a|] eqn:Ha.
    + rewrite (drop_S x a k Ha). simpl default. rewrite surviving_pairs_cons.
      destruct (negb (isNaN b) && negb (isNaN a)).
      * rewrite IH by lia. simpl. now rewrite <- !app_assoc.
      * now rewrite IH by lia.
    + simpl default. replace (isNaN Undefined) with true by reflexivity.
      rewrite andb_false_r.
      apply lookup_ge_None_1 in Ha.
      rewrite IH by lia.
      rewrite (drop_ge x k) by lia. rewrite (drop_ge x (S k)) by lia.
      now rewrite !surviving_pairs_nil_l.
Qed.

Lemma keepPairs_spec (x y : list value) :
  keepPairs x y = (map fst (surviving_pairs x y), map snd (surviving_pairs x y)).
Proof.
  unfold keepPairs.
  exact (keepPairs_from x y (length y) 0 [] [] (eq_sym (Nat.sub_0_r (length y)))).
Qed.

Lemma sumLoop_from (ps : list (float * float)) (n k : nat) (s : sums) :
  n = (length ps - k)%nat ->
  fold_left
    (fun s c =>
       {| xSum := xSum s + num_get (map fst ps) c;
          xSquaredSum := xSquaredSum s + Math_pow (num_get (map fst ps) c) 2;
          ySum := ySum s + num_get (map snd ps) c;
          ySquaredSum := ySquaredSum s + Math_pow (num_get (map snd ps) c) 2;
          xyProd := xyProd s + num_get (map fst ps) c * num_get (map snd ps) c |})
    (seq k n) s
  = fold_left add_pair (drop k ps) s.
Proof.
  revert k s. induction n as [|n IH]; intros k s Hn.
  - now rewrite (drop_ge ps k) by lia.
  - assert (Hk : (k < length ps)%nat) by lia.
    destruct (lookup_lt_is_Some_2 ps k Hk) as [p Hp].
    rewrite (drop_S ps p k Hp). simpl seq. simpl fold_left.
    rewrite IH by lia. unfold num_get. rewrite !list_lookup_fmap, Hp.
    reflexivity.
Qed.

Lemma fold_add_pair (ps : list (float * float)) (s : sums) :
  fold_left add_pair ps s =
  {| xSum := fold_left add (map fst ps) (xSum s);
     ySum := fold_left add (map snd ps) (ySum s);
     xSquaredSum := fold_left add (map (fun a => Math_pow a 2) (map fst ps)) (xSquaredSum s);
     ySquaredSum := fold_left add (map (fun a => Math_pow a 2) (map snd ps)) (ySquaredSum s);
     xyProd := fold_left add (map (fun p => fst p * snd p) ps) (xyProd s) |}.
Proof.
  revert s. induction ps as [|p ps IH]; intros s.
  - now destruct s.
  - simpl. now rewrite IH.
Qed.

Lemma sumLoop_spec (ps : list (float * float)) :
  sumLoop (map fst ps) (map snd ps) =
  {| xSum := fsum (map fst ps);
     ySum := fsum (map snd ps);
     xSquaredSum := fsum (map (fun a => Math_pow a 2) (map fst ps));
     ySquaredSum := fsum (map (fun a => Math_pow a 2) (map snd ps));
     xyProd := fsum (map (fun p => fst p * snd p) ps) |}.
Proof.
  unfold sumLoop. rewrite length_map.
  rewrite (sumLoop_from ps (length ps) 0) by lia.
  now rewrite fold_add_pair.
Qed.

(** [pearsonCorrelation] in terms of the surviving pairs. *)
Lemma pearsonCorrelation_spec (x y : list value) :
  pearsonCorrelation x y =
  let ps := surviving_pairs x y in
  if negb (length x =? length y)%nat then Str "failed"
  else if (10 <? length ps)%nat
       then Obj [("r"%string, Num (pearson_r ps));
                 ("p"%string, Num (pearson_p (length ps) (pearson_r ps)))]
       else Str "failed".
Proof.
  unfold pearsonCorrelation. rewrite keepPairs_spec. cbv zeta.
  rewrite !length_map, sumLoop_spec. reflexivity.
Qed.

Lemma surviving_pairs_lookup (x y : list value) (i : nat) (a b : value) :
  x !! i = Some a -> y !! i = Some b -> isNaN a = false -> isNaN b = false ->
  In (ToNumber a, ToNumber b) (surviving_pairs x y).
Proof.
  intros Hx Hy Ha Hb. unfold surviving_pairs.
  apply (in_map (fun p => (ToNumber (fst p), ToNumber (snd p))) _ (a, b)).
  apply filter_In. split.
  - revert y i Hx Hy. induction x as [|a' x IH]; intros y i Hx Hy; [discriminate|].
    destruct y as [|b' y]; [discriminate|].
    destruct i as [|i]; simpl in *.
    + left. congruence.
    + right. eapply IH; eauto.
  - simpl. now rewrite Ha, Hb.
Qed.

End Pearson.

(** C6. [pearsonCorrelation x y] is the string ["failed"] exactly when the
    lengths of [x] and [y] differ or at most 10 index-aligned pairs survive
    the pairwise NaN filter; otherwise it is the record [{r, p}] with [r]
    Pearson's coefficient of the surviving pairs and [p] the value of
    [tDistribution] for [df] = (number of surviving pairs) - 2. *)
Theorem pearsonCorrelation_failed_iff (x y : list value) :
  let ps := surviving_pairs x y in
  (pearsonCorrelation x y = Str "failed" <->
   (length x <> length y \/ (length ps <= 10)%nat))
  /\ (length x = length y -> (10 < length ps)%nat ->
      pearsonCorrelation x y =
        Obj [("r"%string, Num (pearson_r ps));
             ("p"%string,
              Num (tDistribution (N2F (length ps) - 2)
                     (Math_abs (pearson_r ps /
                                Math_sqrt ((1 - Math_pow (pearson_r ps) 2) /
                                           (N2F (length ps) - 2))))))]).
Proof.
  intros ps. rewrite pearsonCorrelation_spec. fold ps. cbv zeta.
  destruct (Nat.eqb_spec (length x) (length y)) as [E|E]; simpl.
  - destruct (Nat.ltb_spec 10 (length ps)) as [L|L].
    + split; [|reflexivity]. split; [discriminate|]. lia.
    + split; [|lia]. split; [auto|reflexivity].
  - split; [|contradiction]. split; [auto|reflexivity].
Qed.

Lemma pearsonCorrelation_failed_iff_witness :
  exists r p : float,
    pearsonCorrelation (nums [1; 2; 3; 4; 5; 6; 7; 8; 9; 10; 11])
                       (nums [1; 2; 3; 4; 5; 6; 7; 8; 9; 10; 12])
    = Obj [("r"%string, Num r); ("p"%string, Num p)].
Proof.
  eexists. eexists.
  apply (proj2 (pearsonCorrelation_failed_iff
                  (nums [1; 2; 3; 4; 5; 6; 7; 8; 9; 10; 11])
                  (nums [1; 2; 3; 4; 5; 6; 7; 8; 9; 10; 12]))).
  - reflexivity.
  - vm_compute. lia.
Defined.

(** C9 (as amended). [null] passes the NaN filter of [pearsonCorrelation]
    and is coerced to 0: a pair one entry of which is [null] and the other
    of which does not coerce to NaN is pushed on [newX] and [newY] with 0
    in the place of [null]; it counts towards the more-than-10 threshold
    and enters the coefficient, whereas [tTest] filters [null] out. *)
Theorem pearsonCorrelation_keeps_null_pairs :
  isNaN Null = false
  /\ ToNumber Null = 0
  /\ (forall (x y : list value) (i : nat) (v : value),
        x !! i = Some Null -> y !! i = Some v -> isNaN v = false ->
        exists j : nat,
          fst (keepPairs x y) !! j = Some 0 /\
          snd (keepPairs x y) !! j = Some (ToNumber v))
  /\ (forall (x y : list value) (i : nat) (v : value),
        x !! i = Some v -> y !! i = Some Null -> isNaN v = false ->
        exists j : nat,
          fst (keepPairs x y) !! j = Some (ToNumber v) /\
          snd (keepPairs x y) !! j = Some 0)
  /\ (forall (x y : list value) (v : value),
        isNaN v = false ->
        length (surviving_pairs (Null :: x) (v :: y)) = S (length (surviving_pairs x y)))
  /\ (forall x y : list value,
        length x = length y -> (10 < length (surviving_pairs x y))%nat ->
        pearsonCorrelation x y =
          Obj [("r"%string, Num (pearson_r (surviving_pairs x y)));
               ("p"%string, Num (pearson_p (length (surviving_pairs x y))
                                           (pearson_r (surviving_pairs x y))))])
  /\ pearsonCorrelation (nums [1; 2; 3; 4; 5; 6; 7; 8; 9; 10])
                        (nums [1; 2; 3; 4; 5; 6; 7; 8; 9; 10]) = Str "failed"
  /\ pearsonCorrelation (nums [1; 2; 3; 4; 5; 6; 7; 8; 9; 10] ++ [Null])
                        (nums [1; 2; 3; 4; 5; 6; 7; 8; 9; 10; 12])
     = Obj [("r"%string, Num (pearson_r
                                [(1, 1); (2, 2); (3, 3); (4, 4); (5, 5); (6, 6);
                                 (7, 7); (8, 8); (9, 9); (10, 10); (0, 12)]));
            ("p"%string, Num (pearson_p 11
                                (pearson_r
                                   [(1, 1); (2, 2); (3, 3); (4, 4); (5, 5); (6, 6);
                                    (7, 7); (8, 8); (9, 9); (10, 10); (0, 12)])))]
  /\ List.filter present [Num 1; Null; Num 2] = [Num 1; Num 2].
Proof.
  assert (K : forall (x y : list value) (i : nat) (a b : value),
             x !! i = Some a -> y !! i = Some b -> isNaN a = false -> isNaN b = false ->
             exists j : nat,
               fst (keepPairs x y) !! j = Some (ToNumber a) /\
               snd (keepPairs x y) !! j = Some (ToNumber b)).
  { intros x y i a b Hx Hy Ha Hb.
    pose proof (surviving_pairs_lookup x y i a b Hx Hy Ha Hb) as Hin.
    apply list_elem_of_In, list_elem_of_lookup in Hin as [j Hj].
    exists j. rewrite keepPairs_spec. simpl.
    now rewrite !list_lookup_fmap, Hj. }
  split; [reflexivity|]. split; [reflexivity|].
  split; [intros x y i v Hx Hy Hv; exact (K x y i Null v Hx Hy eq_refl Hv)|].
  split; [intros x y i v Hx Hy Hv; exact (K x y i v Null Hx Hy Hv eq_refl)|].
  split.
  { intros x y v Hv. rewrite surviving_pairs_cons, Hv. reflexivity. }
  split.
  { intros x y E L. rewrite pearsonCorrelation_spec. cbv zeta.
    apply Nat.eqb_eq in E. apply Nat.ltb_lt in L. now rewrite E, L. }
  split; [by_evaluation|].
  split; [by_evaluation|].
  reflexivity.
Qed.

Lemma pearsonCorrelation_keeps_null_pairs_witness :
  exists j : nat,
    fst (keepPairs [Num 5; Null] [Num 1; Str "7"]) !! j = Some 0 /\
    snd (keepPairs [Num 5; Null] [Num 1; Str "7"]) !! j = Some (ToNumber (Str "7")).
Proof.
  apply (proj1 (proj2 (proj2 pearsonCorrelation_keeps_null_pairs))
               [Num 5; Null] [Num 1; Str "7"] 1%nat (Str "7")).
  - reflexivity.
  - reflexivity.
  - by_evaluation.
Defined.

(** C9 (as stated) fails: not every pair with a [null] entry is kept.  The
    pair of [null] and [undefined] is dropped, because [undefined] coerces
    to NaN; with ten ordinary pairs beside it the result is ["failed"]. *)
Lemma pearsonCorrelation_drops_null_with_NaN :
  isNaN Null = false
  /\ isNaN Undefined = true
  /\ keepPairs [Null] [Undefined] = ([], [])
  /\ keepPairs [Undefined] [Null] = ([], [])
  /\ pearsonCorrelation (nums [1; 2; 3; 4; 5; 6; 7; 8; 9; 10] ++ [Null])
                        (nums [1; 2; 3; 4; 5; 6; 7; 8; 9; 10] ++ [Undefined])
     = Str "failed".
Proof.
  split; [reflexivity|].
  split; [reflexivity|].
  split; [by_evaluation|].
  split; by_evaluation.
Qed.

(* ===================================================================== *)
(** * Properties of [quantile], [median] and [summary]                    *)
(* ===================================================================== *)

Section Store.

Lemma elements_app_l (h fresh : store) (y : loc) :
  (y < length h)%nat -> elements (h ++ fresh) y = elements h y.
Proof. intros H. unfold elements. now rewrite lookup_app_l. Qed.

Lemma elements_app_new (h : store) (l : list value) :
  elements (h ++ [l]) (length h) = l.
Proof. unfold elements. now rewrite list_lookup_middle. Qed.

Lemma extends_refl (h : store) : extends h h.
Proof. exists []. now rewrite app_nil_r. Qed.

Lemma extends_trans (h1 h2 h3 : store) :
  extends h1 h2 -> extends h2 h3 -> extends h1 h3.
Proof. intros [f1 ->] [f2 ->]. exists (f1 ++ f2). now rewrite app_assoc. Qed.

(** Arrays allocated before are what they were. *)
Lemma extends_elements (h h' : store) (y : loc) :
  extends h h' -> (y < length h)%nat -> elements h' y = elements h y.
Proof. intros [fresh ->] H. now apply elements_app_l. Qed.

(** Sorting the array just allocated touches that array only. *)
Lemma array_sort_fresh (comparefn : value -> value -> float) (h : store) (l : list value) :
  array_sort comparefn (length h) (h ++ [l]) = (length h, h ++ [sorted_by comparefn l]).
Proof.
  unfold array_sort. rewrite elements_app_new. f_equal.
  rewrite insert_app_r_alt by lia. now rewrite Nat.sub_diag.
Qed.

(** [quantile] leaves the store it was given followed by one new array:
    the sorted copy of the coerced elements. *)
Lemma quantile_store (h : store) (x : loc) (q : float) :
  snd (quantile x q h) =
  h ++ [sorted_by (fun a b => ToNumber a - ToNumber b) (map makeNumeric (elements h x))].
Proof.
  unfold quantile, bind, array_map.
  rewrite array_sort_fresh. unfold read. rewrite elements_app_new.
  destruct (length _ =? 0)%nat; [reflexivity|].
  destruct (negb _); reflexivity.
Qed.

Lemma quantile_extends (h : store) (x : loc) (q : float) :
  extends h (snd (quantile x q h)).
Proof. rewrite quantile_store. eexists. reflexivity. Qed.

Lemma summary_extends (h : store) (x : loc) (addQuantile : bool) :
  extends h (snd (summary x addQuantile h)).
Proof.
  unfold summary, bind, read, median.
  destruct (quantile x 0.5 h) as [med h1] eqn:E1.
  assert (X1 : extends h h1).
  { replace h1 with (snd (quantile x 0.5 h)) by now rewrite E1.
    apply quantile_extends. }
  destruct addQuantile; [|exact X1].
  destruct (quantile x 0.25 h1) as [q25 h2] eqn:E2.
  destruct (quantile x 0.75 h2) as [q75 h3] eqn:E3.
  apply (extends_trans h h1 h3 X1).
  apply (extends_trans h1 h2 h3).
  - replace h2 with (snd (quantile x 0.25 h1)) by now rewrite E2.
    apply quantile_extends.
  - replace h3 with (snd (quantile x 0.75 h2)) by now rewrite E3.
    apply quantile_extends.
Qed.

End Store.

(** The elements that come out of [makeNumeric] are Numbers or [null], and
    sorting keeps them so: the left operand of [+] in [quantile] is never a
    string. *)
Lemma insert_sorted_Forall (P : value -> Prop) (comparefn : value -> value -> float)
  (a : value) (l : list value) :
  P a -> Forall P l -> Forall P (insert_sorted comparefn a l).
Proof.
  intros Ha. induction 1 as [|b l Hb Hl IH]; simpl.
  - now constructor.
  - destruct (0 <? comparefn a b); repeat constructor; auto.
Qed.

Lemma sorted_by_Forall (P : value -> Prop) (comparefn : value -> value -> float)
  (l : list value) :
  Forall P l -> Forall P (sorted_by comparefn l).
Proof.
  induction 1 as [|a l Ha Hl IH]; simpl; [constructor|].
  now apply insert_sorted_Forall.
Qed.

Lemma quantile_operands_numeric (comparefn : value -> value -> float) (x : list value) :
  Forall (fun v => v = Null \/ exists f, v = Num f)
         (sorted_by comparefn (map makeNumeric x)).
Proof.
  apply sorted_by_Forall, List.Forall_forall. intros v Hv.
  apply in_map_iff in Hv as (w & <- & _).
  destruct (makeNumeric_cases w) as [H|(f & H & _)]; eauto.
Qed.

(** The value [quantile] returns, in terms of the sorted copy. *)
Lemma quantile_value (h : store) (x : loc) (q : float) :
  fst (quantile x q h) =
  let xs := sorted_by (fun a b => ToNumber a - ToNumber b) (map makeNumeric (elements h x)) in
  if (length xs =? 0)%nat then Num 0
  else
    let position := (N2F (length xs) - 1) * q in
    let base := Math_floor position in
    let rest := position - base in
    if negb (is_undefined (array_get xs base)) then
      Num (ToNumber (array_get xs base) +
           rest * (ToNumber (array_get xs (base + 1)) - ToNumber (array_get xs base)))
    else array_get xs base.
Proof.
  unfold quantile, bind, array_map.
  rewrite array_sort_fresh. unfold read. rewrite elements_app_new. cbv zeta.
  destruct (length _ =? 0)%nat; [reflexivity|].
  destruct (negb _); reflexivity.
Qed.

(** On a one-element array the element at [base + 1] never exists, and
    [quantile] returns NaN for every [q] between 0 and 1 (so does
    [median]). *)
Lemma quantile_singleton_is_NaN (h : store) (x : loc) (v : value) (q : float) :
  elements h x = [v] -> (0 <=? q) = true -> (q <=? 1) = true ->
  fst (quantile x q h) = Num nan.
Proof.
  intros Hx H0 H1. rewrite quantile_value, Hx. cbv zeta.
  change (sorted_by _ (map makeNumeric [v])) with [makeNumeric v].
  change (length [makeNumeric v] =? 0)%nat with false. cbv iota.
  change (N2F (length [makeNumeric v]) - 1) with 0.
  destruct (zero_mul_between q H0 H1) as [s Hz].
  set (z := 0 * q) in *.
  assert (Hf : Math_floor z = z) by (unfold Math_floor; now rewrite Hz).
  rewrite Hf.
  assert (Hg : array_get [makeNumeric v] z = makeNumeric v)
    by (unfold array_get, F2Z; now rewrite Hz).
  rewrite Hg, (zero_add_1 z s Hz).
  change (array_get [makeNumeric v] 1) with Undefined.
  change (ToNumber Undefined) with nan.
  rewrite sub_nan_l, mul_nan_r, add_nan_r.
  destruct (makeNumeric_cases v) as [->|(f & -> & _)]; reflexivity.
Qed.

Lemma quantile_singleton_is_NaN_example :
  fst (median 0%nat [nums [5]]) = Num nan.
Proof.
  apply (quantile_singleton_is_NaN [nums [5]] 0%nat (Num 5) 0.5); reflexivity.
Qed.

(** Where the element at [base + 1] exists the R-7 value comes out, and the
    empty array gives 0. *)
Lemma quantile_examples :
  fst (quantile 0%nat 0.5 [nums [1; 2; 3; 4]]) = Num 2.5
  /\ fst (quantile 0%nat 0.25 [nums [4; 2; 3; 1]]) = Num 1.75
  /\ fst (quantile 0%nat 0 [nums [4; 2; 3; 1]]) = Num 1
  /\ forall q : float, fst (quantile 0%nat q [[]]) = Num 0.
Proof.
  split; [by_evaluation|].
  split; [by_evaluation|].
  split; [by_evaluation|].
  intros q. rewrite quantile_value. reflexivity.
Qed.

(** C1 (code at the failing input). For [x = [1,2,3,4]] and [q = 1] the
    position is 3, [x[base]] is the maximum 4 and [x[base + 1]] does not
    exist; the guard tests [x[base]], so the interpolation is taken with
    [undefined] and [quantile] returns NaN, not 4. *)
Theorem quantile_at_one_is_NaN :
  fst (quantile 0%nat 1 [nums [1; 2; 3; 4]]) = Num nan
  /\ Math_floor ((N2F 4 - 1) * 1) = 3
  /\ array_get (nums [1; 2; 3; 4]) 3 = Num 4
  /\ array_get (nums [1; 2; 3; 4]) (3 + 1) = Undefined
  /\ Math_max (nums [1; 2; 3; 4]) = 4.
Proof.
  split; [by_evaluation|].
  split; [by_evaluation|].
  split; [by_evaluation|].
  split; by_evaluation.
Qed.

(** C2 (as amended). [quantile], and so [median] and [summary], leave the
    caller's array as it was: [x.map(makeNumeric)] allocates a new array,
    the sort reorders that new array in place, and every array allocated
    before the call keeps its elements. *)
Theorem quantile_leaves_caller_array (h : store) (x : loc) (q : float) :
  (x < length h)%nat ->
  snd (quantile x q h) =
    h ++ [sorted_by (fun a b => ToNumber a - ToNumber b) (map makeNumeric (elements h x))]
  /\ elements (snd (quantile x q h)) x = elements h x
  /\ elements (snd (median x h)) x = elements h x
  /\ (forall addQuantile : bool,
        elements (snd (summary x addQuantile h)) x = elements h x)
  /\ (forall y : loc, (y < length h)%nat ->
        elements (snd (quantile x q h)) y = elements h y
        /\ elements (snd (median x h)) y = elements h y
        /\ forall addQuantile : bool,
             elements (snd (summary x addQuantile h)) y = elements h y).
Proof.
  intros Hx.
  assert (F : forall y : loc, (y < length h)%nat ->
            elements (snd (quantile x q h)) y = elements h y
            /\ elements (snd (median x h)) y = elements h y
            /\ forall addQuantile : bool,
                 elements (snd (summary x addQuantile h)) y = elements h y).
  { intros y Hy. split; [|split].
    - apply extends_elements; [apply quantile_extends | exact Hy].
    - apply extends_elements; [apply quantile_extends | exact Hy].
    - intros b. apply extends_elements; [apply summary_extends | exact Hy]. }
  split; [apply quantile_store|].
  split; [apply (F x Hx)|].
  split; [apply (F x Hx)|].
  split; [apply (F x Hx)|].
  exact F.
Qed.

Lemma quantile_leaves_caller_array_witness :
  elements (snd (quantile 0%nat 0.5 [nums [3; 1; 2]])) 0%nat = nums [3; 1; 2].
Proof.
  refine (proj1 (proj2 (quantile_leaves_caller_array [nums [3; 1; 2]] 0%nat 0.5 _))).
  simpl. lia.
Defined.

(** C2 (as stated) fails: after [quantile(x, 0.5)] on [x = [3,1,2]] the
    caller's array is still [[3,1,2]], which is not in ascending order;
    the sorted elements are in the array allocated by the call. *)
Lemma quantile_does_not_sort_caller_array :
  elements (snd (quantile 0%nat 0.5 [nums [3; 1; 2]])) 0%nat = nums [3; 1; 2]
  /\ ascending (elements (snd (quantile 0%nat 0.5 [nums [3; 1; 2]])) 0%nat) = false
  /\ elements (snd (quantile 0%nat 0.5 [nums [3; 1; 2]])) 1%nat = nums [1; 2; 3]
  /\ elements (snd (summary 0%nat true [nums [3; 1; 2]])) 0%nat = nums [3; 1; 2].
Proof.
  split; [by_evaluation|].
  split; [by_evaluation|].
  split; by_evaluation.
Qed.

(* ===================================================================== *)
(** * Further facts of binary64 arithmetic                                *)
(* ===================================================================== *)

Section Arithmetic.

Lemma add_comm (a b : float) : a + b = b + a.
Proof.
  apply Prim2SF_inj. rewrite !add_spec.
  destruct (Prim2SF a) as [sa|sa| |sa ma ea], (Prim2SF b) as [sb|sb| |sb mb eb];
    try reflexivity; try (destruct sa, sb; reflexivity).
  unfold SF64add, SFadd. rewrite (Z.min_comm eb ea). now rewrite Z.add_comm.
Qed.

Lemma mul_comm (a b : float) : a * b = b * a.
Proof.
  apply Prim2SF_inj. rewrite !mul_spec.
  destruct (Prim2SF a) as [sa|sa| |sa ma ea], (Prim2SF b) as [sb|sb| |sb mb eb];
    try reflexivity; try (destruct sa, sb; reflexivity).
  unfold SF64mul, SFmul. now rewrite (Pos.mul_comm mb ma), (Z.add_comm eb ea), (xorb_comm sb sa).
Qed.

Lemma binary_round_sgn (s : bool) (m : positive) (e : Z) :
  SFsgn (binary_round prec emax s m e) = None \/
  SFsgn (binary_round prec emax s m e) = Some s.
Proof.
  unfold binary_round. destruct (shl_align _ _ _) as [mz ez].
  apply binary_round_aux_sgn.
Qed.

Lemma binary_normalize_nonneg_sgn (z e : Z) :
  (0 <= z)%Z ->
  SFsgn (binary_normalize prec emax z e false) = None \/
  SFsgn (binary_normalize prec emax z e false) = Some false.
Proof.
  destruct z; simpl; [now right | intros _; apply binary_round_sgn | lia].
Qed.

Lemma add_sign_clear (a b : float) :
  sign_clear a -> sign_clear b -> sign_clear (a + b).
Proof.
  unfold sign_clear, sgn. rewrite add_spec.
  destruct (Prim2SF a) as [sa|sa| |sa ma ea], (Prim2SF b) as [sb|sb| |sb mb eb];
    simpl; intros [Ha|Ha] [Hb|Hb]; try discriminate; auto;
    injection Ha as ->; injection Hb as ->; simpl; auto.
  apply binary_round_sgn.
Qed.

(** The Number of a non-negative integer is NaN or has a clear sign. *)
Lemma SF2Prim_sign_clear (s : spec_float) :
  SFsgn s = None \/ SFsgn s = Some false -> sign_clear (SF2Prim s).
Proof.
  unfold sign_clear, sgn.
  destruct s as [b|b| |b m e]; simpl; intros [H|H]; try discriminate;
    try injection H as ->; try (right; reflexivity); try (left; reflexivity).
  unfold Z.ldexp. rewrite ldshiftexp_spec, of_uint63_spec.
  pose proof (Uint63.to_Z_bounded (Uint63.of_Z (Zpos m))) as [Hm _].
  destruct (binary_normalize_nonneg_sgn (Uint63.to_Z (Uint63.of_Z (Zpos m))) 0 Hm) as [E|E];
    destruct (binary_normalize prec emax _ 0 false) as [c|c| |c m' e']; simpl in *;
    try discriminate; auto.
  injection E as ->. apply binary_round_sgn.
Qed.

Lemma Z2F_sign_clear (z : Z) : (0 <= z)%Z -> sign_clear (Z2F z).
Proof. intros H. apply SF2Prim_sign_clear. now apply binary_normalize_nonneg_sgn. Qed.

Lemma N2F_sign_clear (n : nat) : sign_clear (N2F n).
Proof. apply Z2F_sign_clear. lia. Qed.

(** Rounding treats the sign apart: the magnitude of the result does not
    depend on it. *)
Lemma binary_round_aux_abs (s s' : bool) (m e : Z) (l : location) :
  SFabs (binary_round_aux prec emax s m e l) = SFabs (binary_round_aux prec emax s' m e l).
Proof.
  unfold binary_round_aux.
  destruct (shr_fexp prec emax m e l) as [mrs' e'].
  destruct (shr_fexp prec emax _ e' loc_Exact) as [mrs'' e''].
  destruct (shr_m mrs''); simpl; auto.
  destruct (Z.leb e'' (Z.sub emax prec)); reflexivity.
Qed.

Lemma binary_round_abs (s s' : bool) (m : positive) (e : Z) :
  SFabs (binary_round prec emax s m e) = SFabs (binary_round prec emax s' m e).
Proof.
  unfold binary_round. destruct (shl_align _ _ _) as [mz ez].
  apply binary_round_aux_abs.
Qed.

Lemma binary_normalize_opp_abs (z e : Z) :
  SFabs (binary_normalize prec emax (- z) e false) = SFabs (binary_normalize prec emax z e false).
Proof. destruct z; simpl; [reflexivity | apply binary_round_abs | apply binary_round_abs]. Qed.

(** [a - b] and [b - a] have the same magnitude. *)
Lemma SFsub_swap_abs (x y : spec_float) :
  SFabs (SFsub prec emax x y) = SFabs (SFsub prec emax y x).
Proof.
  destruct x as [sx|sx| |sx mx ex], y as [sy|sy| |sy my ey];
    try reflexivity; try (destruct sx, sy; reflexivity).
  unfold SFsub. rewrite (Z.min_comm ey ex).
  rewrite <- binary_normalize_opp_abs. f_equal. f_equal. lia.
Qed.

(** The magnitude of a quotient depends on the magnitude of the dividend
    only. *)
Lemma SFdiv_abs (u v s : spec_float) :
  SFabs u = SFabs v -> SFabs (SFdiv prec emax u s) = SFabs (SFdiv prec emax v s).
Proof.
  destruct u as [a|a| |a mu eu], v as [b|b| |b mv ev]; simpl; try discriminate;
    intros H; try (injection H as -> ->);
    destruct s as [c|c| |c ms es]; simpl; try reflexivity.
  destruct (SFdiv_core_binary prec emax (Zpos mv) ev (Zpos ms) es) as [[mz ez] lz].
  apply binary_round_aux_abs.
Qed.

Lemma abs_sub_div_swap (a b s : float) : abs ((a - b) / s) = abs ((b - a) / s).
Proof.
  apply Prim2SF_inj. rewrite !abs_spec, !div_spec, !sub_spec.
  apply SFdiv_abs, SFsub_swap_abs.
Qed.

(** A spec Number above 0. *)
Lemma SFltb_zero_sgn (r : spec_float) :
  SFltb (S754_zero false) r = true -> SFsgn r = Some false.
Proof. destruct r as [s|s| |s m e]; simpl; try discriminate; now destruct s. Qed.

Lemma SFltb_zero_not_neg (r : spec_float) :
  SFsgn r = None \/ SFsgn r = Some true -> SFltb (S754_zero false) r = false.
Proof.
  destruct r as [s|s| |s m e]; simpl; intros [H|H]; try discriminate;
    try reflexivity; now injection H as ->.
Qed.

(** The difference comparator is antisymmetric: [a - b > 0] excludes
    [b - a > 0]. *)
Lemma sub_pos_antisym (a b : float) : (0 <? a - b) = true -> (0 <? b - a) = false.
Proof.
  rewrite !ltb_spec, !sub_spec. change (Prim2SF 0) with (S754_zero false).
  unfold SF64sub.
  destruct (Prim2SF a) as [sa|sa| |sa ma ea], (Prim2SF b) as [sb|sb| |sb mb eb];
    try (simpl; discriminate).
  1-8: destruct sa, sb; cbv; congruence.
  unfold SFsub. rewrite (Z.min_comm eb ea).
  set (X := cond_Zopp sa (Zpos (shl_align ma ea (Z.min ea eb)).1)).
  set (Y := cond_Zopp sb (Zpos (shl_align mb eb (Z.min ea eb)).1)).
  replace (Z.sub Y X) with (Z.opp (Z.sub X Y)) by lia.
  destruct (Z.sub X Y) as [|p|p]; simpl.
  - discriminate.
  - intros _. apply SFltb_zero_not_neg.
    destruct (binary_round_sgn true p (Z.min ea eb)); auto.
  - intros H. apply SFltb_zero_sgn in H.
    destruct (binary_round_sgn true p (Z.min ea eb)); congruence.
Qed.

End Arithmetic.

(* ===================================================================== *)
(** * Further properties of the coercion layer                            *)
(* ===================================================================== *)

(** X1. [makeNumeric] returns [null] or a Number that is not NaN, never
    [undefined], a string or NaN; its result does not coerce to NaN, and
    coercing twice is coercing once. *)
Theorem makeNumeric_idempotent (v : value) :
  (makeNumeric v = Null \/ exists f, makeNumeric v = Num f /\ is_nan f = false)
  /\ isNaN (makeNumeric v) = false
  /\ makeNumeric (makeNumeric v) = makeNumeric v.
Proof.
  destruct (makeNumeric_cases v) as [E|(f & E & Hf)]; rewrite E.
  - split; [now left|]. split; reflexivity.
  - split; [right; eauto|]. split; [exact Hf|].
    unfold makeNumeric, isNumber, isNaN. simpl. now rewrite Hf.
Qed.

Lemma countNull_length (x : list value) :
  countNull x = length (List.filter (fun e => is_null e || is_str "null" e) x).
Proof. unfold countNull. now rewrite countNull_acc. Qed.

(** X2. [countNull] is additive over concatenation, never exceeds the
    length of the array, and is 0 exactly when no entry is [null] or the
    string ["null"] (so [undefined] is not counted). *)
Theorem countNull_additive :
  (forall x y : list value, countNull (x ++ y) = (countNull x + countNull y)%nat)
  /\ (forall x : list value, (countNull x <= length x)%nat)
  /\ (forall x : list value,
        countNull x = 0%nat <-> forall e, In e x -> e <> Null /\ e <> Str "null").
Proof.
  split; [|split].
  - intros x y. rewrite !countNull_length, List.filter_app. apply List.length_app.
  - intros x. rewrite countNull_length. apply List.filter_length_le.
  - intros x. rewrite countNull_length. induction x as [|a x IH]; simpl.
    + split; [intros _ e []|reflexivity].
    + destruct (is_null a || is_str "null" a) eqn:E; simpl.
      * split; [discriminate|]. intros H. exfalso.
        destruct (H a (or_introl eq_refl)) as [H1 H2].
        apply orb_true_iff in E as [E|E].
        -- now apply is_null_spec in E.
        -- now apply is_str_spec in E.
      * rewrite IH. apply orb_false_iff in E as [E1 E2].
        split.
        -- intros H e [<-|He]; [|now apply H].
           split; intros ->; [discriminate E1 | discriminate E2].
        -- intros H e He. apply H. now right.
Qed.

(* ===================================================================== *)
(** * Signs of the statistics                                             *)
(* ===================================================================== *)

(** X3. For all arguments, NaN and the infinities included, the values of
    [tDistribution] and [fDistribution] are NaN or at least 0: the
    sixteenth power cannot turn the result negative. *)
Theorem distributions_not_negative (a b c : float) :
  (is_nan (tDistribution a b) = true \/ (0 <=? tDistribution a b) = true)
  /\ (is_nan (fDistribution a b c) = true \/ (0 <=? fDistribution a b c) = true).
Proof.
  split; apply sign_clear_nonneg; [unfold tDistribution | unfold fDistribution];
    apply tail_sign_clear.
Qed.

Lemma fold_add_sign_clear (l : list float) (acc : float) :
  sign_clear acc -> Forall sign_clear l -> sign_clear (fold_left add l acc).
Proof.
  intros Hacc Hl. revert acc Hacc.
  induction Hl as [|a l Ha Hl IH]; intros acc Hacc; simpl; [exact Hacc|].
  apply IH. now apply add_sign_clear.
Qed.

Lemma square_sign_clear (a : float) : sign_clear (Math_pow a 2).
Proof. apply (Math_pow_even_sign_clear a 1). Qed.

Lemma fold_squares_sign_clear (g : value -> float) (x : list value) (acc : float) :
  sign_clear acc ->
  sign_clear (fold_left (fun diff xi => diff + Math_pow (g xi) 2) x acc).
Proof.
  revert acc. induction x as [|a x IH]; intros acc Hacc; simpl; [exact Hacc|].
  apply IH. apply add_sign_clear; [exact Hacc | apply square_sign_clear].
Qed.

Lemma zero_sign_clear : sign_clear 0.
Proof. right. reflexivity. Qed.

(** X4. [variance x] is NaN or at least 0 for every array [x], whatever
    its entries: a sum of squares divided by the length. *)
Theorem variance_not_negative (x : list value) :
  is_nan (variance x) = true \/ (0 <=? variance x) = true.
Proof.
  apply sign_clear_nonneg. unfold variance.
  apply div_sign_clear; [|apply N2F_sign_clear].
  apply (fold_squares_sign_clear (fun xi => ToNumber xi - mean x)), zero_sign_clear.
Qed.

Lemma imap_Forall {A B : Type} (P : B -> Prop) (f : nat -> A -> B) (l : list A) :
  (forall i a, P (f i a)) -> Forall P (imap f l).
Proof.
  revert f. induction l as [|a l IH]; intros f H; simpl; constructor.
  - apply H.
  - apply IH. intros i b. apply H.
Qed.

(** X5. [sumSquaredErrors data] is NaN or at least 0 for every list of
    groups. *)
Theorem sumSquaredErrors_not_negative (data : list (list value)) :
  is_nan (sumSquaredErrors data) = true \/ (0 <=? sumSquaredErrors data) = true.
Proof.
  apply sign_clear_nonneg. unfold sumSquaredErrors.
  apply fold_add_sign_clear; [apply zero_sign_clear|].
  apply imap_Forall. intros i datai.
  apply fold_add_sign_clear; [apply zero_sign_clear|].
  apply List.Forall_forall. intros s Hs.
  apply in_map_iff in Hs as (v & <- & _). apply square_sign_clear.
Qed.

(** X6. Whatever the samples, [tTest] returns NaN or a Number that is at
    least 0; and when [pearsonCorrelation] returns a record, its [p] is NaN
    or at least 0. *)
Theorem p_values_not_negative (x y : list value) :
  (is_nan (tTest x y) = true \/ (0 <=? tTest x y) = true)
  /\ (forall r p : float,
        pearsonCorrelation x y = Obj [("r"%string, Num r); ("p"%string, Num p)] ->
        is_nan p = true \/ (0 <=? p) = true).
Proof.
  split.
  - unfold tTest. destruct (_ && _)%bool.
    + apply sign_clear_nonneg. unfold tDistribution. apply tail_sign_clear.
    + left. reflexivity.
  - intros r p. rewrite pearsonCorrelation_spec. cbv zeta.
    destruct (negb _); [discriminate|]. destruct (_ <? _)%nat; [|discriminate].
    intros [= _ <-]. apply sign_clear_nonneg. unfold pearson_p, tDistribution.
    apply tail_sign_clear.
Qed.

Lemma p_values_not_negative_witness :
  let x := nums [1; 2; 3; 4; 5; 6; 7; 8; 9; 10; 11] in
  let y := nums [1; 2; 3; 4; 5; 6; 7; 8; 9; 10; 12] in
  let ps := surviving_pairs x y in
  is_nan (pearson_p (length ps) (pearson_r ps)) = true
  \/ (0 <=? pearson_p (length ps) (pearson_r ps)) = true.
Proof.
  intros x y ps.
  apply (proj2 (p_values_not_negative x y) (pearson_r ps)).
  vm_compute. reflexivity.
Defined.

(* ===================================================================== *)
(** * Further properties of [tTest]                                       *)
(* ===================================================================== *)

Lemma filter_present_idem (x : list value) :
  List.filter present (List.filter present x) = List.filter present x.
Proof.
  induction x as [|a x IH]; simpl; [reflexivity|].
  destruct (present a) eqn:E; simpl; [|exact IH]. now rewrite E, IH.
Qed.

Lemma tTest_filtered (x x' y y' : list value) :
  List.filter present x = List.filter present x' ->
  List.filter present y = List.filter present y' ->
  tTest x y = tTest x' y'.
Proof. intros Hx Hy. unfold tTest. now rewrite Hx, Hy. Qed.

(** X7. [tTest] sees the entries other than [null] and [undefined] only:
    it returns the same for the filtered samples, and an entry [null] or
    [undefined] put anywhere into either sample does not change the
    result. *)
Theorem tTest_ignores_missing (x y : list value) :
  tTest x y = tTest (List.filter present x) (List.filter present y)
  /\ (forall (x1 x2 : list value) (m : value),
        m = Null \/ m = Undefined -> x = x1 ++ x2 ->
        tTest (x1 ++ m :: x2) y = tTest x y)
  /\ (forall (y1 y2 : list value) (m : value),
        m = Null \/ m = Undefined -> y = y1 ++ y2 ->
        tTest x (y1 ++ m :: y2) = tTest x y).
Proof.
  assert (D : forall (l1 l2 : list value) (m : value),
             m = Null \/ m = Undefined ->
             List.filter present (l1 ++ m :: l2) = List.filter present (l1 ++ l2)).
  { intros l1 l2 m Hm. rewrite !List.filter_app. f_equal.
    destruct Hm as [-> | ->]; reflexivity. }
  split; [|split].
  - apply tTest_filtered; symmetry; apply filter_present_idem.
  - intros x1 x2 m Hm ->. apply tTest_filtered; [now apply D | reflexivity].
  - intros y1 y2 m Hm ->. apply tTest_filtered; [reflexivity | now apply D].
Qed.

Lemma tTest_ignores_missing_witness :
  tTest ([Num 1; Num 2] ++ Null :: [Num 4; Num 6]) (nums [5; 6; 7; 9])
  = tTest (nums [1; 2; 4; 6]) (nums [5; 6; 7; 9]).
Proof.
  refine (proj1 (proj2 (tTest_ignores_missing (nums [1; 2; 4; 6]) (nums [5; 6; 7; 9])))
                [Num 1; Num 2] [Num 4; Num 6] Null _ _).
  - left. reflexivity.
  - reflexivity.
Defined.

Lemma degreesOfFreedom_swap (x y : list value) :
  degreesOfFreedom x y = degreesOfFreedom y x.
Proof.
  unfold degreesOfFreedom. cbv zeta.
  rewrite (add_comm (variance x / N2F (length x)) (variance y / N2F (length y))).
  now rewrite (add_comm (Math_pow (variance x / N2F (length x)) 2 / (N2F (length x) - 1))).
Qed.

(** X8. [tTest] and [degreesOfFreedom] are symmetric: exchanging the two
    samples gives the same result, bit for bit. *)
Theorem tTest_symmetric (x y : list value) :
  tTest x y = tTest y x /\ degreesOfFreedom x y = degreesOfFreedom y x.
Proof.
  split; [|apply degreesOfFreedom_swap].
  unfold tTest. cbv zeta.
  set (x' := List.filter present x). set (y' := List.filter present y).
  rewrite (andb_comm (3 <=? length y')%nat).
  destruct (_ && _)%bool; [|reflexivity].
  rewrite (degreesOfFreedom_swap y' x').
  unfold Math_abs. rewrite (abs_sub_div_swap (mean y') (mean x')).
  now rewrite (add_comm (variance y' / N2F (length y'))).
Qed.

(* ===================================================================== *)
(** * Further properties of [pearsonCorrelation]                          *)
(* ===================================================================== *)

Lemma surviving_pairs_swap (x y : list value) :
  surviving_pairs y x = map swap (surviving_pairs x y).
Proof.
  revert y. induction x as [|a x IH]; intros y.
  - now rewrite surviving_pairs_nil_r.
  - destruct y as [|b y]; [reflexivity|].
    rewrite !surviving_pairs_cons, (andb_comm (negb (isNaN a))).
    destruct (negb (isNaN b) && negb (isNaN a)); simpl; now rewrite IH.
Qed.

Lemma pearson_r_swap (ps : list (float * float)) :
  pearson_r (map swap ps) = pearson_r ps.
Proof.
  unfold pearson_r. cbv zeta. rewrite length_map, !map_map. simpl.
  rewrite (map_ext (fun p => snd p * fst p) (fun p => fst p * snd p))
    by (intros p; apply mul_comm).
  f_equal; [|apply mul_comm].
  f_equal. f_equal. apply mul_comm.
Qed.

(** X9. [pearsonCorrelation] is symmetric: exchanging the two arrays gives
    the same sentinel or the same record, bit for bit. *)
Theorem pearsonCorrelation_symmetric (x y : list value) :
  pearsonCorrelation x y = pearsonCorrelation y x.
Proof.
  rewrite !pearsonCorrelation_spec. cbv zeta.
  rewrite (surviving_pairs_swap x y), length_map, pearson_r_swap.
  now rewrite (Nat.eqb_sym (length y)).
Qed.

Lemma surviving_pairs_length (x y : list value) :
  (length (surviving_pairs x y) <= length x /\
   length (surviving_pairs x y) <= length y)%nat.
Proof.
  revert y. induction x as [|a x IH]; intros y; [simpl; lia|].
  destruct y as [|b y]; [simpl; lia|].
  rewrite surviving_pairs_cons. specialize (IH y).
  destruct (_ && _)%bool; simpl; lia.
Qed.

(** X10. The first loop of [pearsonCorrelation] keeps [newX] and [newY] of
    the same length, at most the length of either array; so two arrays one
    of which has at most 10 entries always give ["failed"]. *)
Theorem pearsonCorrelation_needs_eleven (x y : list value) :
  length (fst (keepPairs x y)) = length (snd (keepPairs x y))
  /\ (length (snd (keepPairs x y)) <= length x)%nat
  /\ (length (snd (keepPairs x y)) <= length y)%nat
  /\ ((length x <= 10 \/ length y <= 10)%nat -> pearsonCorrelation x y = Str "failed").
Proof.
  rewrite keepPairs_spec. simpl. rewrite !length_map.
  destruct (surviving_pairs_length x y) as [Hx Hy].
  split; [reflexivity|]. split; [exact Hx|]. split; [exact Hy|].
  intros H. rewrite pearsonCorrelation_spec. cbv zeta.
  destruct (negb _); [reflexivity|].
  destruct (Nat.ltb_spec 10 (length (surviving_pairs x y))); [lia | reflexivity].
Qed.

Lemma pearsonCorrelation_needs_eleven_witness :
  pearsonCorrelation (nums [1; 2; 3; 4; 5; 6; 7; 8; 9; 10])
                     (nums [2; 4; 6; 8; 10; 12; 14; 16; 18; 20]) = Str "failed".
Proof.
  refine (proj2 (proj2 (proj2 (pearsonCorrelation_needs_eleven
            (nums [1; 2; 3; 4; 5; 6; 7; 8; 9; 10])
            (nums [2; 4; 6; 8; 10; 12; 14; 16; 18; 20])))) _).
  left. simpl. lia.
Defined.

(* ===================================================================== *)
(** * Further properties of [quantile], [median] and [summary]            *)
(* ===================================================================== *)

Section Sorting.

Variable comparefn : value -> value -> float.

Lemma insert_sorted_perm (a : value) (l : list value) :
  Permutation (insert_sorted comparefn a l) (a :: l).
Proof.
  induction l as [|b l IH]; simpl; [reflexivity|].
  destruct (0 <? comparefn a b); [|reflexivity].
  rewrite IH. apply perm_swap.
Qed.

Lemma sorted_by_perm (l : list value) : Permutation (sorted_by comparefn l) l.
Proof.
  induction l as [|a l IH]; simpl; [reflexivity|].
  now rewrite insert_sorted_perm, IH.
Qed.

Hypothesis antisym :
  forall a b, (0 <? comparefn a b) = true -> (0 <? comparefn b a) = false.

Lemma insert_sorted_ordered (a : value) (l : list value) :
  ordered_by comparefn l = true ->
  ordered_by comparefn (insert_sorted comparefn a l) = true.
Proof.
  induction l as [|b l IH]; [reflexivity|].
  intros Hl. simpl insert_sorted.
  destruct (0 <? comparefn a b) eqn:Eab.
  - assert (Hl' : ordered_by comparefn l = true)
      by (destruct l; [reflexivity | simpl in Hl; now apply andb_true_iff in Hl]).
    specialize (IH Hl'). destruct l as [|c l].
    + simpl. now rewrite (antisym a b Eab).
    + simpl in Hl. apply andb_true_iff in Hl as [Hbc _].
      simpl insert_sorted in *. destruct (0 <? comparefn a c).
      * change (negb (0 <? comparefn b c) && ordered_by comparefn (c :: insert_sorted comparefn a l) = true).
        now rewrite Hbc, IH.
      * change (negb (0 <? comparefn b a) && ordered_by comparefn (a :: c :: l) = true).
        now rewrite (antisym a b Eab), IH.
  - change (negb (0 <? comparefn a b) && ordered_by comparefn (b :: l) = true).
    now rewrite Eab, Hl.
Qed.

Lemma sorted_by_ordered (l : list value) :
  ordered_by comparefn (sorted_by comparefn l) = true.
Proof.
  induction l as [|a l IH]; [reflexivity|].
  simpl. now apply insert_sorted_ordered.
Qed.

End Sorting.

(** X11. The array [quantile] allocates holds a permutation of the coerced
    entries of the caller's array, of the same length, in which no element
    is immediately followed by one that the comparator [a - b] puts before
    it. *)
Theorem quantile_sorts_a_copy (h : store) (x : loc) (q : float) :
  exists s : list value,
    snd (quantile x q h) = h ++ [s]
    /\ Permutation s (map makeNumeric (elements h x))
    /\ length s = length (elements h x)
    /\ ordered_by by_difference s = true.
Proof.
  exists (sorted_by by_difference (map makeNumeric (elements h x))).
  split; [apply quantile_store|].
  split; [apply sorted_by_perm|].
  split.
  - rewrite (Permutation_length (sorted_by_perm by_difference _)). apply length_map.
  - apply sorted_by_ordered. intros a b. apply sub_pos_antisym.
Qed.

Lemma sorted_by_length (comparefn : value -> value -> float) (l : list value) :
  length (sorted_by comparefn l) = length l.
Proof. apply Permutation_length, sorted_by_perm. Qed.

(** X12. On the empty array [quantile] returns 0 for every [q], NaN
    included; on a non-empty array [quantile(x, NaN)] is [undefined]. *)
Theorem quantile_edge_cases (h : store) (x : loc) :
  (elements h x = [] -> forall q : float, fst (quantile x q h) = Num 0)
  /\ (elements h x <> [] -> fst (quantile x nan h) = Undefined).
Proof.
  split.
  - intros E q. rewrite quantile_value, E. reflexivity.
  - intros E. rewrite quantile_value. cbv zeta.
    destruct (Nat.eqb_spec (length (sorted_by (fun a b => ToNumber a - ToNumber b)
                                              (map makeNumeric (elements h x)))) 0) as [L|L].
    + rewrite sorted_by_length, length_map in L.
      destruct (elements h x); [contradiction | discriminate].
    + rewrite mul_nan_r. reflexivity.
Qed.

Lemma quantile_edge_cases_witness :
  fst (quantile 0%nat 0.5 [[]]) = Num 0.
Proof.
  refine (proj1 (quantile_edge_cases [[]] 0%nat) _ 0.5).
  reflexivity.
Defined.

(** X13. Whatever the array and [q], [quantile] returns a Number or
    [undefined], never [null], a string or an object. *)
Theorem quantile_returns_number_or_undefined (h : store) (x : loc) (q : float) :
  (exists f : float, fst (quantile x q h) = Num f) \/ fst (quantile x q h) = Undefined.
Proof.
  rewrite quantile_value. cbv zeta.
  destruct (_ =? 0)%nat; [left; eauto|].
  destruct (is_undefined _) eqn:E; simpl; [|left; eauto].
  right. exact (proj1 (is_undefined_spec _) E).
Qed.

(** X14. On an array of one entry the element at [base + 1] never exists:
    [median] returns NaN, and so does [quantile] for every [q] between 0
    and 1. *)
Theorem median_of_singleton_is_NaN (h : store) (x : loc) (v : value) :
  elements h x = [v] ->
  fst (median x h) = Num nan
  /\ forall q : float, (0 <=? q) = true -> (q <=? 1) = true ->
                       fst (quantile x q h) = Num nan.
Proof.
  intros E. split.
  - apply (quantile_singleton_is_NaN h x v 0.5 E); reflexivity.
  - intros q. apply (quantile_singleton_is_NaN h x v q E).
Qed.

Lemma median_of_singleton_is_NaN_witness :
  fst (median 0%nat [[Str "7"]]) = Num nan.
Proof.
  refine (proj1 (median_of_singleton_is_NaN [[Str "7"]] 0%nat (Str "7") _)).
  reflexivity.
Defined.

(** The value of [quantile] depends on the elements of the array only, not
    on the other arrays of the store. *)
Lemma quantile_depends_on_elements (h h' : store) (x : loc) (q : float) :
  elements h x = elements h' x -> fst (quantile x q h) = fst (quantile x q h').
Proof. intros E. now rewrite !quantile_value, E. Qed.

Lemma summary_value (h : store) (x : loc) (addQuantile : bool) :
  (x < length h)%nat ->
  fst (summary x addQuantile h) =
  Obj ([("minimum"%string, Num (Math_min (elements h x)));
        ("maximum"%string, Num (Math_max (elements h x)));
        ("mean"%string, Num (mean (elements h x)));
        ("median"%string, fst (quantile x 0.5 h));
        ("null"%string, Num (N2F (countNull (elements h x))))] ++
       (if addQuantile
        then [("quantile 25%"%string, fst (quantile x 0.25 h));
              ("quantile 75%"%string, fst (quantile x 0.75 h))]
        else [])).
Proof.
  intros Hx. unfold summary, bind, read, median.
  pose proof (quantile_extends h x 0.5) as X1.
  destruct (quantile x 0.5 h) as [med h1]. simpl in X1. simpl fst.
  pose proof (extends_elements h h1 x X1 Hx) as E1. rewrite E1.
  destruct addQuantile; [|reflexivity].
  pose proof (quantile_extends h1 x 0.25) as X2.
  pose proof (quantile_depends_on_elements h1 h x 0.25 E1) as Q2.
  destruct (quantile x 0.25 h1) as [q25 h2]. simpl in X2, Q2.
  assert (E2 : elements h2 x = elements h x).
  { rewrite <- E1. apply extends_elements; [exact X2|].
    destruct X1 as [f ->]. rewrite length_app. lia. }
  pose proof (quantile_depends_on_elements h2 h x 0.75 E2) as Q3.
  destruct (quantile x 0.75 h2) as [q75 h3]. simpl in Q3. simpl.
  now rewrite Q2, Q3.
Qed.

(** X15. Every field of the record [summary] returns is computed from the
    caller's array as it was before the call: [median] and the two
    quantile fields are what [quantile] returns on the store of the call,
    whatever arrays the earlier calls allocated.  The record has the keys
    [minimum], [maximum], [mean], [median] and [null], followed by
    [quantile 25%] and [quantile 75%] exactly when [addQuantile] is set. *)
Theorem summary_record (h : store) (x : loc) (addQuantile : bool) :
  (x < length h)%nat ->
  keys (fst (summary x addQuantile h)) =
    ["minimum"; "maximum"; "mean"; "median"; "null"]%string ++
    (if addQuantile then ["quantile 25%"; "quantile 75%"]%string else [])
  /\ field "minimum" (fst (summary x addQuantile h)) = Some (Num (Math_min (elements h x)))
  /\ field "maximum" (fst (summary x addQuantile h)) = Some (Num (Math_max (elements h x)))
  /\ field "mean" (fst (summary x addQuantile h)) = Some (Num (mean (elements h x)))
  /\ field "median" (fst (summary x addQuantile h)) = Some (fst (quantile x 0.5 h))
  /\ field "null" (fst (summary x addQuantile h)) = Some (Num (N2F (countNull (elements h x))))
  /\ field "quantile 25%" (fst (summary x addQuantile h)) =
       (if addQuantile then Some (fst (quantile x 0.25 h)) else None)
  /\ field "quantile 75%" (fst (summary x addQuantile h)) =
       (if addQuantile then Some (fst (quantile x 0.75 h)) else None).
Proof.
  intros Hx. rewrite (summary_value h x addQuantile Hx).
  destruct addQuantile; repeat split; reflexivity.
Qed.

Lemma summary_record_witness :
  field "quantile 75%" (fst (summary 0%nat true [nums [3; 1; 2]]))
  = Some (fst (quantile 0%nat 0.75 [nums [3; 1; 2]])).
Proof.
  refine (proj2 (proj2 (proj2 (proj2 (proj2 (proj2 (proj2
            (summary_record [nums [3; 1; 2]] 0%nat true _)))))))).
  simpl. lia.
Defined.

Lemma min2_nan_r (a f : float) : is_nan f = true -> min2 a f = nan.
Proof. intros H. unfold min2. now rewrite H, orb_true_r. Qed.

Lemma max2_nan_r (a f : float) : is_nan f = true -> max2 a f = nan.
Proof. intros H. unfold max2. now rewrite H, orb_true_r. Qed.

Lemma fold_min2_nan (l : list float) : fold_left min2 l nan = nan.
Proof. induction l as [|a l IH]; simpl; [reflexivity | exact IH]. Qed.

Lemma fold_max2_nan (l : list float) : fold_left max2 l nan = nan.
Proof. induction l as [|a l IH]; simpl; [reflexivity | exact IH]. Qed.

Lemma Math_min_max_NaN (x : list value) (v : value) :
  In v x -> isNaN v = true -> Math_min x = nan /\ Math_max x = nan.
Proof.
  intros Hin Hv. unfold Math_min, Math_max.
  generalize infinity as lo. generalize neg_infinity as hi.
  induction x as [|a x IH]; [destruct Hin|].
  intros hi lo. simpl. destruct Hin as [->|Hin].
  - rewrite (min2_nan_r lo _ Hv), (max2_nan_r hi _ Hv).
    now rewrite fold_min2_nan, fold_max2_nan.
  - apply (IH Hin).
Qed.

(** X16. [summary] does not filter before [Math.min] and [Math.max]: when
    some entry of the array coerces to NaN ([undefined], a non-numeric
    string such as ["null"], NaN), the fields [minimum] and [maximum] are
    both NaN. *)
Theorem summary_extremes_NaN (h : store) (x : loc) (addQuantile : bool) (v : value) :
  (x < length h)%nat -> In v (elements h x) -> isNaN v = true ->
  field "minimum" (fst (summary x addQuantile h)) = Some (Num nan)
  /\ field "maximum" (fst (summary x addQuantile h)) = Some (Num nan).
Proof.
  intros Hx Hin Hv. rewrite (summary_value h x addQuantile Hx).
  destruct (Math_min_max_NaN (elements h x) v Hin Hv) as [-> ->].
  split; reflexivity.
Qed.

Lemma summary_extremes_NaN_witness :
  field "minimum" (fst (summary 0%nat false [[Num 3; Str "null"; Num 1]])) = Some (Num nan)
  /\ field "maximum" (fst (summary 0%nat false [[Num 3; Str "null"; Num 1]])) = Some (Num nan).
Proof.
  refine (summary_extremes_NaN [[Num 3; Str "null"; Num 1]] 0%nat false (Str "null") _ _ _).
  - simpl. lia.
  - simpl. tauto.
  - vm_compute. reflexivity.
Defined.

(* ===================================================================== *)
(** * Further properties of [anova] and of the approximations             *)
(* ===================================================================== *)

(** X17. For every input, array of arrays or not, [anova] returns the
    boolean [false] or a Number that is NaN or at least 0. *)
Theorem anova_false_or_not_negative (x : value) :
  anova x = Bool false \/
  exists p : float, anova x = Num p /\ (is_nan p = true \/ (0 <=? p) = true).
Proof.
  destruct x; try (left; reflexivity).
  unfold anova. destruct (negb _); [left; reflexivity|].
  destruct (groups l) as [gs|]; [|left; reflexivity].
  right. eexists. split; [reflexivity|].
  apply sign_clear_nonneg. unfold fDistribution. apply tail_sign_clear.
Qed.

Section Propagation.

Lemma mul_nan_l (a : float) : nan * a = nan.
Proof. now rewrite mul_comm, mul_nan_r. Qed.

Lemma div_nan_l (a : float) : nan / a = nan.
Proof. apply Prim2SF_inj. now rewrite div_spec, Prim2SF_nan. Qed.

Lemma div_nan_r (a : float) : a / nan = nan.
Proof.
  apply Prim2SF_inj. rewrite div_spec, Prim2SF_nan. now destruct (Prim2SF a).
Qed.

Lemma sub_nan_r (a : float) : a - nan = nan.
Proof.
  apply Prim2SF_inj. rewrite sub_spec, Prim2SF_nan. now destruct (Prim2SF a).
Qed.

Lemma tail_nan : tail nan = nan.
Proof. by_evaluation. Qed.

(** Whatever [s] is, [(s * 0) / 0] is NaN. *)
Lemma mul_zero_div_zero (s : float) : s * 0 / 0 = nan.
Proof.
  apply Prim2SF_inj. rewrite div_spec, mul_spec, Prim2SF_nan.
  change (Prim2SF 0) with (S754_zero false).
  now destruct (Prim2SF s).
Qed.

Lemma fDistribution_nan (a b : float) : fDistribution nan a b = nan.
Proof. unfold fDistribution. cbv zeta. now rewrite sub_nan_l, div_nan_l, tail_nan. Qed.

End Propagation.

(** X18. A NaN statistic gives a NaN p-value: [fDistribution(NaN, df1,
    df2)], [tDistribution(df, NaN)] and [tDistribution(NaN, t)] are NaN
    for all the other arguments. *)
Theorem distributions_propagate_NaN (a b : float) :
  fDistribution nan a b = nan
  /\ tDistribution a nan = nan
  /\ tDistribution nan a = nan.
Proof.
  split; [|split].
  - apply fDistribution_nan.
  - unfold tDistribution. cbv zeta. now rewrite mul_nan_l, div_nan_l, tail_nan.
  - unfold tDistribution. cbv zeta.
    now rewrite (mul_nan_r 4), div_nan_r, sub_nan_r, mul_nan_r, div_nan_l, tail_nan.
Qed.

(** X19. With a single group the treatment mean square is a division of a
    zero (or NaN) by [m - 1 = 0]: [anova([g])] is NaN for every group
    [g]. *)
Theorem anova_single_group_is_NaN (g : list value) :
  anova (Arr [Arr g]) = Num nan.
Proof.
  change (Arr [Arr g]) with (Arr (map Arr [g])).
  rewrite (anova_groups [g]). cbv zeta. f_equal.
  unfold fStatistic. cbv zeta.
  unfold sumSquaredTreatment. cbv zeta.
  change (N2F (length (map mean [g])) - 1) with 0.
  change (N2F (length [g]) - 1) with 0.
  rewrite mul_zero_div_zero, div_nan_l.
  apply fDistribution_nan.
Qed.

Lemma surviving_pairs_drop_pair (x1 x2 y1 y2 : list value) (a b : value) :
  length x1 = length y1 -> isNaN a = true \/ isNaN b = true ->
  surviving_pairs (x1 ++ a :: x2) (y1 ++ b :: y2) = surviving_pairs (x1 ++ x2) (y1 ++ y2).
Proof.
  intros Hl Hab. revert y1 Hl. induction x1 as [|c x1 IH]; intros y1 Hl.
  - destruct y1; [|discriminate]. simpl app. rewrite surviving_pairs_cons.
    destruct Hab as [-> | ->]; [now rewrite andb_false_r | reflexivity].
  - destruct y1 as [|d y1]; [discriminate|]. simpl app.
    rewrite !surviving_pairs_cons, IH by (simpl in Hl; lia). reflexivity.
Qed.

(** X20. An index at which either entry coerces to NaN ([undefined], a
    non-numeric string, NaN) is ignored by [pearsonCorrelation]: removing
    that index from both arrays leaves the surviving pairs, and so the
    coefficient and its significance, unchanged; only the two lengths,
    which stay equal or stay different, are one less. *)
Theorem pearsonCorrelation_ignores_NaN_pairs
  (x1 x2 y1 y2 : list value) (a b : value) :
  length x1 = length y1 -> isNaN a = true \/ isNaN b = true ->
  surviving_pairs (x1 ++ a :: x2) (y1 ++ b :: y2) = surviving_pairs (x1 ++ x2) (y1 ++ y2)
  /\ pearsonCorrelation (x1 ++ a :: x2) (y1 ++ b :: y2)
     = pearsonCorrelation (x1 ++ x2) (y1 ++ y2).
Proof.
  intros Hl Hab.
  pose proof (surviving_pairs_drop_pair x1 x2 y1 y2 a b Hl Hab) as E.
  split; [exact E|].
  rewrite !pearsonCorrelation_spec. cbv zeta. rewrite E.
  replace (length (x1 ++ a :: x2) =? length (y1 ++ b :: y2))%nat
    with (length (x1 ++ x2) =? length (y1 ++ y2))%nat; [reflexivity|].
  rewrite !length_app. simpl.
  destruct (Nat.eqb_spec (length x1 + length x2) (length y1 + length y2));
    symmetry; [apply Nat.eqb_eq | apply Nat.eqb_neq]; lia.
Qed.

Lemma pearsonCorrelation_ignores_NaN_pairs_witness :
  pearsonCorrelation ([Num 1; Num 2] ++ Undefined :: [Num 3]) ([Num 4; Num 5] ++ Num 9 :: [Num 6])
  = pearsonCorrelation ([Num 1; Num 2] ++ [Num 3]) ([Num 4; Num 5] ++ [Num 6]).
Proof.
  refine (proj2 (pearsonCorrelation_ignores_NaN_pairs
                   [Num 1; Num 2] [Num 3] [Num 4; Num 5] [Num 6] Undefined (Num 9) _ _)).
  - reflexivity.
  - left. reflexivity.
Defined.
